(** * Verification of the agent notebooks

    Shallow embedding of two notebooks of the repository:

    - [memory_enhanced_conversational_agent.ipynb] (module [Memory]):
      the per-session chat history, the capped long-term memory and the
      [chat] turn;
    - [multi_agent_collaboration_system.ipynb] (module [Collab]): the
      agents, the five step functions and
      [HistoryDataCollaborationSystem.solve].

    Python strings are modelled by [string]: one [ascii] stands for one
    character, so [String.length] is Python's [len].  The two process-wide
    dictionaries are finite maps keyed by the session id.  The remote
    model call and the wall clock are the only sources of
    non-determinism; they are threaded through the code as an explicit
    world. *)

From Stdlib Require Import ZArith Ascii String PrimFloat SpecFloat FloatOps.
From stdpp Require Import gmap strings list.

(** ** Python values used by both notebooks *)
Module Py.

(** The dict literal with the two keys role and content, in that
    insertion order. *)
Record message := Message { role : string; content : string }.

(** A raised exception: whether it is an instance of the class
    [Exception] (what an [except Exception] clause matches) and the text
    that [str(e)] gives. *)
Record exn := Exn { is_Exception : bool; exn_str : string }.

(** What a call that may raise yields. *)
Inductive outcome (A : Type) : Type :=
| Returns (a : A)
| Raises (e : exn).
Arguments Returns {A} a.
Arguments Raises {A} e.

Definition nl : string := String (ascii_of_nat 10) EmptyString.
Definition squote : ascii := ascii_of_nat 39.
Definition dquote : ascii := ascii_of_nat 34.
Definition backslash : ascii := ascii_of_nat 92.

(** [str.isprintable] on one character of the Latin-1 range: the C0 and
    C1 controls, DEL, the no-break space and the soft hyphen are not
    printable. *)
Definition isprintable (c : ascii) : bool :=
  let n := nat_of_ascii c in
  if n <? 127 then 32 <=? n else (161 <=? n) && negb (n =? 173).

Definition hex_digit (n : nat) : ascii :=
  nth n (list_ascii_of_string "0123456789abcdef") "0"%char.

Definition hex_escape (c : ascii) : string :=
  let n := nat_of_ascii c in
  String backslash
    (String "x" (String (hex_digit (n / 16)) (String (hex_digit (n mod 16)) EmptyString))).

Fixpoint occurs (c : ascii) (s : string) : bool :=
  match s with
  | EmptyString => false
  | String d r => bool_decide (c = d) || occurs c r
  end.

(** [repr] of a [str] picks the double quote only when the text holds a
    single quote and no double quote. *)
Definition repr_quote (s : string) : ascii :=
  if occurs squote s && negb (occurs dquote s) then dquote else squote.

Definition repr_char (quote c : ascii) : string :=
  let n := nat_of_ascii c in
  if bool_decide (c = quote) || bool_decide (c = backslash)
  then String backslash (String c EmptyString)
  else if n =? 9 then "\t"
  else if n =? 10 then "\n"
  else if n =? 13 then "\r"
  else if isprintable c then String c EmptyString
  else hex_escape c.

Fixpoint repr_body (quote : ascii) (s : string) : string :=
  match s with
  | EmptyString => EmptyString
  | String c r => repr_char quote c +:+ repr_body quote r
  end.

Definition repr_str (s : string) : string :=
  let q := repr_quote s in
  String q (repr_body q s +:+ String q EmptyString).

(** [sep.join(parts)]. *)
Definition join (sep : string) (parts : list string) : string :=
  String.concat sep parts.

Definition repr_message (m : message) : string :=
  "{'role': " +:+ repr_str (role m) +:+ ", 'content': " +:+ repr_str (content m) +:+ "}".

Definition repr_list {A : Type} (repr : A -> string) (l : list A) : string :=
  "[" +:+ join ", " (map repr l) +:+ "]".

(** [l[-n:]] for a positive [n]: the last [n] items, all of [l] when it
    has fewer. *)
Definition last_items {A : Type} (n : nat) (l : list A) : list A :=
  drop (length l - n) l.

(** The literal [0.7] as a binary64 value, the sampling temperature of
    both notebooks. *)
Definition temperature : float := 0x1.6666666666666p-1%float.

(** The keyword arguments of [client.chat.completions.create]. *)
Record request := Request {
  req_model : string;
  req_messages : list message;
  req_temperature : float;
  req_max_tokens : Z
}.

End Py.

(** ** memory_enhanced_conversational_agent.ipynb *)
Module Memory.
Import Py.

Definition model : string := "gpt-4o-mini".

(** The two module-level dictionaries. *)
Record stores := Stores {
  chat_store : gmap string (list message);
  long_term_memory : gmap string (list (list message))
}.

(** Both dictionaries are empty when the notebook has defined them. *)
Definition initial : stores := Stores ∅ ∅.

(** [get_chat_history]: the list under the key, created empty on first
    reference.  The list is returned by reference; callers write their
    appends back under the same key. *)
Definition get_chat_history (session_id : string)
    (cs : gmap string (list message)) : list message * gmap string (list message) :=
  match cs !! session_id with
  | Some h => (h, cs)
  | None => ([], <[session_id := []]> cs)
  end.

(** The two-item list that [update_long_term_memory] stores for a turn. *)
Definition turn_pair (input_text output_text : string) : list message :=
  [ Message "user" input_text; Message "assistant" output_text ].

Definition update_long_term_memory (session_id input_text output_text : string)
    (ltm : gmap string (list (list message))) : gmap string (list (list message)) :=
  let ltm1 :=
    match ltm !! session_id with
    | Some _ => ltm
    | None => <[session_id := []]> ltm
    end in
  let ltm2 :=
    if 20 <? String.length input_text
    then alter (λ l, l ++ [turn_pair input_text output_text]) session_id ltm1
    else ltm1 in
  match ltm2 !! session_id with
  | Some l =>
      if 5 <? length l then <[session_id := last_items 5 l]> ltm2 else ltm2
  | None => ltm2
  end.

(** [long_term_memory.get(session_id, [])]. *)
Definition long_term (ltm : gmap string (list (list message)))
    (session_id : string) : list (list message) :=
  default [] (ltm !! session_id).

Definition get_long_term_memory (session_id : string)
    (ltm : gmap string (list (list message))) : string :=
  join ". " (map (repr_list repr_message) (long_term ltm session_id)).

(** The history of a session as [get_chat_history] would return it. *)
Definition history (st : stores) (session_id : string) : list message :=
  default [] (chat_store st !! session_id).

(** *** The model boundary and [chat] *)
Section Boundary.
Context {World : Type}.

(** [client.chat.completions.create(...)] followed by
    [response.choices[0].message.content]: the text of the completion,
    or an exception; the world records whatever the remote side
    remembers. *)
Variable create : request -> World -> outcome string * World.

Definition generate_response (prompt session_id : string) (w : World)
    : outcome string * World :=
  create
    (Request model
       [ Message "system" "You are a helpful assistant.";
         Message "user" prompt ]
       temperature 150)
    w.

(** The prompt that the first half of [chat] accumulates with [+=]. *)
Definition chat_prompt (long_term_mem : string) (chat_history : list message)
    (input_text : string) : string :=
  let prompt :=
    "You are a helpful AI assistant. Use the information from long-term memory if relevant."
      +:+ nl in
  let prompt :=
    prompt +:+
    (match long_term_mem with
     | String _ _ => "Long-term memory: " +:+ long_term_mem +:+ nl
     | EmptyString => "No long-term memory yet." +:+ nl
     end) in
  let prompt :=
    fold_left
      (λ prompt message, prompt +:+ (role message +:+ ": " +:+ content message +:+ nl))
      chat_history prompt in
  prompt +:+ ("user: " +:+ input_text +:+ nl).

Definition chat (input_text session_id : string) (st : stores) (w : World)
    : outcome string * stores * World :=
  let long_term_mem := get_long_term_memory session_id (long_term_memory st) in
  let '(chat_history, cs) := get_chat_history session_id (chat_store st) in
  let prompt := chat_prompt long_term_mem chat_history input_text in
  match generate_response prompt session_id w with
  | (Raises e, w') => (Raises e, Stores cs (long_term_memory st), w')
  | (Returns response, w') =>
      let chat_history := chat_history ++ [Message "user" input_text] in
      let chat_history := chat_history ++ [Message "assitant" response] in
      let ltm :=
        update_long_term_memory session_id input_text response (long_term_memory st) in
      (Returns response, Stores (<[session_id := chat_history]> cs) ltm, w')
  end.

End Boundary.

(** A run of [update_long_term_memory] calls, oldest first, each call
    given as (session id, input text, output text). *)
Definition updates (calls : list (string * string * string))
    (ltm : gmap string (list (list message))) : gmap string (list (list message)) :=
  fold_left (λ m c, update_long_term_memory c.1.1 c.1.2 c.2 m) calls ltm.

End Memory.

(** ** multi_agent_collaboration_system.ipynb *)
Module Collab.
Import Py.

(** [class Agent]; the attribute [role] is [agent_role] here, [role]
    being the key of a message. *)
Record Agent := mkAgent {
  name : string;
  agent_role : string;
  skills : list string
}.

(** [x > n] for a float [x] and an int [n]: Python compares the two
    exact values; any comparison with a NaN is false. *)
Definition float_gt_int (x : float) (n : Z) : bool :=
  match Prim2SF x with
  | S754_zero _ => (n <? 0)%Z
  | S754_infinity s => negb s
  | S754_nan => false
  | S754_finite s m e =>
      let mz := if s then Z.neg m else Z.pos m in
      if (0 <=? e)%Z then (n <? mz * 2 ^ e)%Z else (n * 2 ^ (- e) <? mz)%Z
  end.

(** [list index out of range], what [context[-1]] raises on an empty
    list. *)
Definition IndexError : exn := Exn true "list index out of range".

(** What a step function hands back: the context list, or a plain
    string ([isinstance(result, str)]). *)
Inductive step_result :=
| Context (context : list message)
| Final (answer : string).

Definition timeout_message : string :=
  "Operation timed out. The process took too long to complete.".

Definition error_message (e : exn) : string :=
  "Error during collaboration: " +:+ exn_str e.

Section World.
Context {World : Type}.

(** The remote completion call, as in [Memory]. *)
Variable create : request -> World -> outcome string * World.
(** [time.time()]: one reading of the wall clock. *)
Variable time_time : World -> float * World.

(** [Agent.process]; [context] is [None] when the argument is left
    out.  [if context:] skips both [None] and the empty list. *)
Definition process (self : Agent) (task : string)
    (context : option (list message)) (w : World) : outcome string * World :=
  let messages :=
    [ Message "system"
        ("You are " +:+ name self +:+ ", a " +:+ agent_role self
         +:+ ". Your skills include: " +:+ join ", " (skills self)
         +:+ ". Respond to the task based on your role and skills.") ] in
  let messages :=
    match context with
    | Some (m :: c) => messages ++ m :: c
    | _ => messages
    end in
  let messages := messages ++ [Message "user" ("Task: " +:+ task)] in
  create (Request "gpt-4o-mini" messages temperature 1000) w.

Definition step_function : Type :=
  Agent -> string -> list message -> World -> outcome step_result * World.

(** The four steps that append the reply of their agent to the shared
    context.  Their progress lines on standard output are left out. *)
Definition research_historical_context : step_function :=
  λ history_agent task context w,
    let history_task :=
      "Provide relevant historical context and information for the following task: "
        +:+ task in
    match process history_agent history_task None w with
    | (Raises e, w') => (Raises e, w')
    | (Returns history_result, w') =>
        (Returns (Context
           (context ++ [Message "assistant" ("History Agent: " +:+ history_result)])), w')
    end.

Definition identify_data_needs : step_function :=
  λ data_agent task context w,
    match last context with
    | None => (Raises IndexError, w)
    | Some m =>
        let historical_context := content m in
        let data_need_task :=
          "Based on the historical context, what specific data or statistical information would be helpful to answer the original question? Historical context: "
            +:+ historical_context in
        match process data_agent data_need_task (Some context) w with
        | (Raises e, w') => (Raises e, w')
        | (Returns data_need_result, w') =>
            (Returns (Context
               (context ++ [Message "assistant" ("Data Agent: " +:+ data_need_result)])), w')
        end
    end.

Definition provide_historical_data : step_function :=
  λ history_agent task context w,
    match last context with
    | None => (Raises IndexError, w)
    | Some m =>
        let data_needs := content m in
        let data_provision_task :=
          "Based on the data needs identified, provide relevant historical data or statistics. Data needs: "
            +:+ data_needs in
        match process history_agent data_provision_task (Some context) w with
        | (Raises e, w') => (Raises e, w')
        | (Returns data_provision_result, w') =>
            (Returns (Context
               (context ++ [Message "assistant" ("History Agent: " +:+ data_provision_result)])), w')
        end
    end.

Definition analyze_data : step_function :=
  λ data_agent task context w,
    match last context with
    | None => (Raises IndexError, w)
    | Some m =>
        let historical_data := content m in
        let analysis_task :=
          "Analyze the historical data provided and describe any trends or insights relevant to the original task. Historical data: "
            +:+ historical_data in
        match process data_agent analysis_task (Some context) w with
        | (Raises e, w') => (Raises e, w')
        | (Returns analysis_result, w') =>
            (Returns (Context
               (context ++ [Message "assistant" ("Data Agent: " +:+ analysis_result)])), w')
        end
    end.

(** The last step returns the text itself, not the context. *)
Definition synthesize_final_answer : step_function :=
  λ history_agent task context w,
    let synthesis_task :=
      "Based on all the historical context, data, and analysis, provide a comprehensive answer to the original task." in
    match process history_agent synthesis_task (Some context) w with
    | (Raises e, w') => (Raises e, w')
    | (Returns final_result, w') => (Returns (Final final_result), w')
    end.

(** What one call of [solve] amounts to: what it returns or lets
    escape, the positions (from 0) of the step functions it invoked, in
    order, and the world it leaves.  [invoked] is instrumentation: the
    source keeps no such log. *)
Record report := Report {
  returned : outcome string;
  invoked : list nat;
  world_after : World
}.

(** The [for] loop of [solve] from the step at position [i] on, and the
    [return] after it.  Only the call of the step function stands
    inside the [try]; [context[-1]] after the loop does not. *)
Fixpoint run_steps (steps : list (step_function * Agent)) (i : nat)
    (task : string) (timeout : Z) (start_time : float)
    (context : list message) (calls : list nat) (w : World) : report :=
  match steps with
  | [] =>
      match last context with
      | Some m => Report (Returns (content m)) calls w
      | None => Report (Raises IndexError) calls w
      end
  | (step_func, agent) :: rest =>
      let '(now, w1) := time_time w in
      if float_gt_int (now - start_time) timeout
      then Report (Returns timeout_message) calls w1
      else
        match step_func agent task context w1 with
        | (Returns (Final result), w2) => Report (Returns result) (calls ++ [i]) w2
        | (Returns (Context result), w2) =>
            run_steps rest (S i) task timeout start_time result (calls ++ [i]) w2
        | (Raises e, w2) =>
            if is_Exception e
            then Report (Returns (error_message e)) (calls ++ [i]) w2
            else Report (Raises e) (calls ++ [i]) w2
        end
  end.

(** [solve] over a given list of steps. *)
Definition solve_with (steps : list (step_function * Agent))
    (task : string) (timeout : Z) (w : World) : report :=
  let '(start_time, w0) := time_time w in
  run_steps steps 0 task timeout start_time [] [] w0.

(** [class HistoryDataCollaborationSystem]. *)
Record HistoryDataCollaborationSystem := mkSystem {
  history_agent : Agent;
  data_agent : Agent
}.

Definition steps_of (self : HistoryDataCollaborationSystem)
    : list (step_function * Agent) :=
  [ (research_historical_context, history_agent self);
    (identify_data_needs, data_agent self);
    (provide_historical_data, history_agent self);
    (analyze_data, data_agent self);
    (synthesize_final_answer, history_agent self) ].

Definition solve (self : HistoryDataCollaborationSystem)
    (task : string) (timeout : Z) (w : World) : report :=
  solve_with (steps_of self) task timeout w.

End World.

(** [HistoryDataCollaborationSystem()]. *)
Definition new_system : HistoryDataCollaborationSystem :=
  mkSystem
    (mkAgent "Clio" "History Research Specialist"
       [ "deep knowledge of historical events";
         "understanding of historical contexts";
         "identifying historical trends" ])
    (mkAgent "Data" "Data Analysis Expert"
       [ "interpreting numerical data";
         "statistical analysis";
         "data visualization description" ]).

End Collab.

(** ** Scripted worlds used to run the code on concrete inputs *)
Module Scripted.
Import Py.

(** A boundary that answers by a fixed function of the request and keeps
    the requests it received, oldest first. *)
Definition recording (reply : request -> outcome string)
    (r : request) (log : list request) : outcome string * list request :=
  (reply r, log ++ [r]).

(** A world with the clock readings and the completions still to come. *)
Record world := World {
  clock : list float;
  replies : list (outcome string)
}.

Definition time_time (w : world) : float * world :=
  match clock w with
  | t :: rest => (t, World rest (replies w))
  | [] => (0%float, w)
  end.

Definition create (r : request) (w : world) : outcome string * world :=
  match replies w with
  | o :: rest => (o, World (clock w) rest)
  | [] => (Raises (Exn true "Connection error."), w)
  end.

(** [KeyboardInterrupt] derives from [BaseException] only; its [str] is
    empty. *)
Definition KeyboardInterrupt : exn := Exn false EmptyString.

Definition RateLimitError : exn := Exn true "Rate limit reached".

End Scripted.

(** * Properties of the memory notebook *)
Module MemoryFacts.
Import Py Memory.

Section LastItems.
Context {A : Type}.
Implicit Types l k : list A.

Lemma last_items_length n l : length (last_items n l) ≤ n.
Proof. unfold last_items. rewrite length_drop. lia. Qed.

Lemma last_items_all n l : length l ≤ n → last_items n l = l.
Proof.
  intros Hle. unfold last_items.
  replace (length l - n) with 0 by lia. reflexivity.
Qed.

Lemma last_items_app_idem n l k :
  last_items n (last_items n l ++ k) = last_items n (l ++ k).
Proof.
  destruct (decide (length l ≤ n)) as [Hle|Hgt].
  - by rewrite (last_items_all n l).
  - unfold last_items at 1 3.
    assert (Hlen : length (last_items n l) = n).
    { unfold last_items. rewrite length_drop. lia. }
    rewrite !length_app, Hlen.
    unfold last_items.
    rewrite <- (drop_app_le l k (length l - n)) by lia.
    rewrite drop_drop. f_equal. lia.
Qed.

End LastItems.

(** What one call stores: the pair when the input is longer than 20
    characters, nothing otherwise. *)
Definition kept (input_text output_text : string) : list (list message) :=
  if 20 <? String.length input_text then [turn_pair input_text output_text] else [].

Lemma update_lookup sid i o (ltm : gmap string (list (list message))) :
  update_long_term_memory sid i o ltm !! sid
  = Some (last_items 5 (long_term ltm sid ++ kept i o)).
Proof.
  unfold update_long_term_memory.
  set (ltm1 := match ltm !! sid with Some _ => ltm | None => <[sid:=[]]> ltm end).
  assert (H1 : ltm1 !! sid = Some (long_term ltm sid)).
  { unfold ltm1, long_term. destruct (ltm !! sid) eqn:Hl; simpl; [done|].
    by rewrite lookup_insert_eq. }
  set (ltm2 := if 20 <? String.length i then alter _ sid ltm1 else ltm1).
  assert (H2 : ltm2 !! sid = Some (long_term ltm sid ++ kept i o)).
  { unfold ltm2, kept. destruct (20 <? String.length i).
    - by rewrite lookup_alter_eq, H1.
    - by rewrite app_nil_r. }
  rewrite H2.
  destruct (5 <? length _) eqn:H5.
  - by rewrite lookup_insert_eq.
  - apply Nat.ltb_ge in H5. by rewrite H2, last_items_all.
Qed.

Lemma update_lookup_ne sid sid' i o (ltm : gmap string (list (list message))) :
  sid ≠ sid' → update_long_term_memory sid i o ltm !! sid' = ltm !! sid'.
Proof.
  intros Hne. unfold update_long_term_memory.
  set (ltm1 := match ltm !! sid with Some _ => ltm | None => <[sid:=[]]> ltm end).
  assert (H1 : ltm1 !! sid' = ltm !! sid').
  { unfold ltm1. destruct (ltm !! sid); [done|]. by rewrite lookup_insert_ne. }
  set (ltm2 := if 20 <? String.length i then alter _ sid ltm1 else ltm1).
  assert (H2 : ltm2 !! sid' = ltm !! sid').
  { unfold ltm2. destruct (20 <? String.length i); [|done].
    by rewrite lookup_alter_ne. }
  destruct (ltm2 !! sid) as [l|]; [|done].
  destruct (5 <? length l); [|done].
  by rewrite lookup_insert_ne.
Qed.

(** The pairs that a run of calls offers to the session [sid], oldest
    first, and whether the run holds a call for [sid] at all. *)
Definition admitted (sid : string) (calls : list (string * string * string))
    : list (list message) :=
  flat_map (λ c, if decide (c.1.1 = sid) then kept c.1.2 c.2 else []) calls.

Definition touched (sid : string) (calls : list (string * string * string)) : bool :=
  existsb (λ c, bool_decide (c.1.1 = sid)) calls.

Lemma admitted_untouched sid calls : touched sid calls = false → admitted sid calls = [].
Proof.
  induction calls as [|c calls IH]; [done|]. simpl.
  intros [Hc Hrest]%orb_false_iff.
  apply bool_decide_eq_false in Hc.
  rewrite decide_False by done. auto.
Qed.

Lemma elem_of_admitted sid calls p :
  p ∈ admitted sid calls →
  ∃ i o, p = turn_pair i o ∧ 20 < String.length i ∧ (sid, i, o) ∈ calls.
Proof.
  unfold admitted. rewrite list_elem_of_In, in_flat_map.
  intros ([[s i] o] & Hin & Hp). simpl in Hp.
  destruct (decide (s = sid)) as [->|]; [|by destruct Hp].
  unfold kept in Hp. destruct (20 <? String.length i) eqn:Hlen; [|by destruct Hp].
  destruct Hp as [<-|[]]. exists i, o.
  split_and!; [done|by apply Nat.ltb_lt|by apply list_elem_of_In].
Qed.

(** The store of a session after any run of calls: the last five of what
    it held followed by what the run offered to it. *)
Lemma updates_lookup calls : ∀ (ltm : gmap string (list (list message))) sid,
  updates calls ltm !! sid
  = if touched sid calls
    then Some (last_items 5 (long_term ltm sid ++ admitted sid calls))
    else ltm !! sid.
Proof.
  induction calls as [|[[s i] o] calls IH]; intros ltm sid; [done|].
  change (updates (((s, i), o) :: calls) ltm)
    with (updates calls (update_long_term_memory s i o ltm)).
  rewrite IH. simpl.
  destruct (decide (s = sid)) as [->|Hne].
  - rewrite bool_decide_eq_true_2 by done. simpl.
    unfold long_term at 1. rewrite update_lookup. simpl.
    destruct (touched sid calls) eqn:Ht.
    + by rewrite last_items_app_idem, <- app_assoc.
    + by rewrite (admitted_untouched _ _ Ht), app_nil_r.
  - rewrite bool_decide_eq_false_2 by done. simpl.
    unfold long_term. by rewrite update_lookup_ne.
Qed.

Lemma updates_from_empty calls sid :
  long_term (updates calls ∅) sid = last_items 5 (admitted sid calls).
Proof.
  unfold long_term at 1. rewrite updates_lookup.
  destruct (touched sid calls) eqn:Ht; [done|].
  by rewrite lookup_empty, (admitted_untouched _ _ Ht).
Qed.

Lemma elem_of_last_items {A} n (l : list A) x : x ∈ last_items n l → x ∈ l.
Proof.
  unfold last_items. intros Hx.
  rewrite <- (take_drop (length l - n) l). apply elem_of_app. by right.
Qed.

Lemma last_items_snoc_elem {A} n (l : list A) x : 0 < n → x ∈ last_items n (l ++ [x]).
Proof.
  intros Hn. unfold last_items. rewrite length_app. simpl.
  rewrite drop_app_le by lia. apply elem_of_app. right. by apply list_elem_of_singleton.
Qed.

Lemma turn_pair_inj i o i' o' : turn_pair i o = turn_pair i' o' → i = i' ∧ o = o'.
Proof. unfold turn_pair. intros H. by simplify_eq. Qed.

(** C4.  [update_long_term_memory] stores the pair exactly when the input
    is longer than 20 characters: on every store reached from the empty
    one, the session's list becomes the (trimmed) old list with the pair
    at its end if and only if [len(input_text) > 20], and is left as it
    was otherwise; whatever the calls, no pair whose input has 20
    characters or fewer is ever found in a long-term store. *)
Theorem admission_rule :
  ∀ (calls : list (string * string * string)) (sid i o : string),
    (long_term (update_long_term_memory sid i o (updates calls ∅)) sid
       = last_items 5 (long_term (updates calls ∅) sid ++ [turn_pair i o])
     ↔ 20 < String.length i)
    ∧ (String.length i ≤ 20 →
       long_term (update_long_term_memory sid i o (updates calls ∅)) sid
       = long_term (updates calls ∅) sid)
    ∧ (∀ sid' i' o',
         turn_pair i' o' ∈ long_term (updates calls ∅) sid' → 20 < String.length i').
Proof.
  intros calls sid i o.
  assert (Hnever : ∀ sid' i' o',
    turn_pair i' o' ∈ long_term (updates calls ∅) sid' → 20 < String.length i').
  { intros sid' i' o'. rewrite updates_from_empty.
    intros Hin%elem_of_last_items%elem_of_admitted.
    destruct Hin as (i2 & o2 & Heq & Hlen & _).
    by apply turn_pair_inj in Heq as [-> _]. }
  assert (Hshort : String.length i ≤ 20 →
    long_term (update_long_term_memory sid i o (updates calls ∅)) sid
    = long_term (updates calls ∅) sid).
  { intros Hlen. unfold long_term at 1. rewrite update_lookup. simpl.
    unfold kept. rewrite (proj2 (Nat.ltb_ge _ _)) by done.
    rewrite app_nil_r, updates_from_empty.
    apply last_items_all, last_items_length. }
  split_and!; [|done|done].
  split.
  - intros Heq. destruct (decide (20 < String.length i)) as [|Hle]; [done|].
    exfalso. rewrite Hshort in Heq by lia.
    assert (Hin : turn_pair i o ∈ long_term (updates calls ∅) sid).
    { rewrite Heq. apply last_items_snoc_elem. lia. }
    apply Hnever in Hin. lia.
  - intros Hlen. unfold long_term at 1. rewrite update_lookup. simpl.
    unfold kept. by rewrite (proj2 (Nat.ltb_lt _ _)).
Qed.

Lemma admission_rule_witness :
  long_term
    (update_long_term_memory "user_123" "I love sunny days." "That's great to hear, Alice!"
       (updates [("user_123", "Hello! My name is Alice.", "Hello, Alice!")] ∅))
    "user_123"
  = long_term (updates [("user_123", "Hello! My name is Alice.", "Hello, Alice!")] ∅) "user_123".
Proof.
  apply (admission_rule
           [("user_123", "Hello! My name is Alice.", "Hello, Alice!")]
           "user_123" "I love sunny days." "That's great to hear, Alice!").
  simpl. lia.
Defined.

(** C5.  Eviction is first in, first out, and the trim follows the
    insert: whatever a session's store holds, after six calls for that
    session with admissible inputs (longer than 20 characters) the store
    is the pairs of the second to the sixth call, in call order. *)
Theorem fifo_eviction :
  ∀ (ltm : gmap string (list (list message))) (sid : string)
    (turns : list (string * string)),
    length turns = 6 →
    Forall (λ t, 20 < String.length t.1) turns →
    updates ((λ t, (sid, t.1, t.2)) <$> turns) ltm !! sid
    = Some (drop 1 ((λ t, turn_pair t.1 t.2) <$> turns)).
Proof.
  intros ltm sid turns Hlen Hadm.
  rewrite updates_lookup.
  assert (Ht : touched sid ((λ t, (sid, t.1, t.2)) <$> turns) = true).
  { destruct turns as [|t turns]; [done|]. simpl.
    by rewrite bool_decide_eq_true_2. }
  assert (Hadmitted : admitted sid ((λ t, (sid, t.1, t.2)) <$> turns)
                      = (λ t, turn_pair t.1 t.2) <$> turns).
  { clear Hlen Ht. induction Hadm as [|t turns Ht _ IH]; [done|].
    simpl. rewrite decide_True by done. unfold kept.
    rewrite (proj2 (Nat.ltb_lt _ _)) by done. simpl. by f_equal. }
  rewrite Ht, Hadmitted. f_equal.
  unfold last_items. rewrite length_app, length_fmap, Hlen.
  rewrite drop_app_ge by lia. f_equal. lia.
Qed.

Lemma fifo_eviction_witness :
  updates
    [ ("user_123", "Hello! My name is Alice.", "a1");
      ("user_123", "What's the weather like today?", "a2");
      ("user_123", "Do you remember my name?", "a3");
      ("user_123", "Which city do I live in now?", "a4");
      ("user_123", "Tell me about sunny days.", "a5");
      ("user_123", "Please summarise our talk.", "a6") ] ∅ !! "user_123"
  = Some
      [ turn_pair "What's the weather like today?" "a2";
        turn_pair "Do you remember my name?" "a3";
        turn_pair "Which city do I live in now?" "a4";
        turn_pair "Tell me about sunny days." "a5";
        turn_pair "Please summarise our talk." "a6" ].
Proof.
  apply (fifo_eviction ∅ "user_123"
           [ ("Hello! My name is Alice.", "a1");
             ("What's the weather like today?", "a2");
             ("Do you remember my name?", "a3");
             ("Which city do I live in now?", "a4");
             ("Tell me about sunny days.", "a5");
             ("Please summarise our talk.", "a6") ]).
  - reflexivity.
  - repeat constructor; simpl; lia.
Defined.

(** C6.  After a call of [update_long_term_memory] the store of the
    session it was called for has at most 5 pairs, whatever the store
    held before; and after any run of calls from the empty store, every
    session's store has at most 5 pairs. *)
Theorem long_term_cap :
  ∀ (ltm : gmap string (list (list message)))
    (calls : list (string * string * string)) (sid i o : string),
    length (long_term (update_long_term_memory sid i o ltm) sid) ≤ 5
    ∧ length (long_term (updates calls ltm) sid) ≤ 5 `max` length (long_term ltm sid)
    ∧ length (long_term (updates calls ∅) sid) ≤ 5.
Proof.
  intros ltm calls sid i o. split_and!.
  - unfold long_term at 1. rewrite update_lookup. simpl. apply last_items_length.
  - unfold long_term at 1. rewrite updates_lookup.
    destruct (touched sid calls); simpl.
    + pose proof (last_items_length 5 (long_term ltm sid ++ admitted sid calls)). lia.
    + fold (long_term ltm sid). lia.
  - rewrite updates_from_empty. apply last_items_length.
Qed.

(** C10.  On a store reached from the empty one, a call whose input has
    20 characters or fewer leaves the list of its session as it was, and
    only makes sure the key is there (with the empty list when it was
    missing); and no call, whatever its input, changes the entry of
    another session. *)
Theorem short_input_frame :
  ∀ (calls : list (string * string * string)) (sid i o : string),
    (String.length i ≤ 20 →
       long_term (update_long_term_memory sid i o (updates calls ∅)) sid
       = long_term (updates calls ∅) sid
       ∧ update_long_term_memory sid i o (updates calls ∅) !! sid
         = Some (long_term (updates calls ∅) sid))
    ∧ (∀ (ltm : gmap string (list (list message))) sid',
         sid ≠ sid' → update_long_term_memory sid i o ltm !! sid' = ltm !! sid').
Proof.
  intros calls sid i o. split.
  - intros Hlen.
    assert (Hsame : update_long_term_memory sid i o (updates calls ∅) !! sid
                    = Some (long_term (updates calls ∅) sid)).
    { rewrite update_lookup. unfold kept.
      rewrite (proj2 (Nat.ltb_ge _ _)) by done.
      rewrite app_nil_r, updates_from_empty. f_equal.
      apply last_items_all, last_items_length. }
    split; [|done]. unfold long_term at 1. by rewrite Hsame.
  - intros ltm sid' Hne. by apply update_lookup_ne.
Qed.

Lemma short_input_frame_witness :
  long_term
    (update_long_term_memory "user_123" "Hi" "Hello!"
       (updates [("user_123", "Hello! My name is Alice.", "Hello, Alice!")] ∅))
    "user_123"
  = [turn_pair "Hello! My name is Alice." "Hello, Alice!"]
  ∧ update_long_term_memory "fresh" "Hi" "Hello!" ∅ !! "fresh" = Some [].
Proof.
  split.
  - refine (proj1 (proj1 (short_input_frame
             [("user_123", "Hello! My name is Alice.", "Hello, Alice!")]
             "user_123" "Hi" "Hello!") _)).
    simpl. lia.
  - refine (proj2 (proj1 (short_input_frame [] "fresh" "Hi" "Hello!") _)).
    simpl. lia.
Defined.

(** The frame property above rests on the cap: a store with more than
    five pairs, which no run of [update_long_term_memory] from the empty
    dictionary produces, is still trimmed by a call with a short input. *)
Remark short_input_trims_oversized :
  long_term
    (update_long_term_memory "s" "Hi" "Hello!"
       {[ "s" := [ turn_pair "1" "a"; turn_pair "2" "b"; turn_pair "3" "c";
                   turn_pair "4" "d"; turn_pair "5" "e"; turn_pair "6" "f" ] ]})
    "s"
  = [ turn_pair "2" "b"; turn_pair "3" "c"; turn_pair "4" "d";
      turn_pair "5" "e"; turn_pair "6" "f" ].
Proof. reflexivity. Qed.

(** The long-term memory that the notebook prints after its second
    turn, with the double quotes that [repr] picks for a text holding an
    apostrophe. *)
Example notebook_rendering :
  get_long_term_memory "user_123"
    (updates
       [ ("user_123", "Hello! My name is Alice.", "Hello, Alice!");
         ("user_123", "What's the weather like today?", "No idea.") ] ∅)
  = "[{'role': 'user', 'content': 'Hello! My name is Alice.'}, "
    +:+ "{'role': 'assistant', 'content': 'Hello, Alice!'}]. "
    +:+ "[{'role': 'user', 'content': "
    +:+ String dquote ("What's the weather like today?" +:+ String dquote "}, ")
    +:+ "{'role': 'assistant', 'content': 'No idea.'}]".
Proof. reflexivity. Qed.

End MemoryFacts.

(** * Properties of [chat] *)
Module ChatFacts.
Import Py Memory.

Lemma append_assoc (a b c : string) : (a +:+ b) +:+ c = a +:+ (b +:+ c).
Proof.
  induction a as [|x a IH]; [done|].
  change (String x ((a +:+ b) +:+ c) = String x (a +:+ (b +:+ c))).
  by rewrite IH.
Qed.

Lemma append_empty_r (a : string) : a +:+ EmptyString = a.
Proof.
  induction a as [|x a IH]; [done|].
  change (String x (a +:+ EmptyString) = String x a). by rewrite IH.
Qed.

(** One line of the prompt per turn of the history, and the lines of a
    whole history, oldest turn first. *)
Definition turn_line (m : message) : string :=
  role m +:+ ": " +:+ content m +:+ nl.

Definition turn_lines (h : list message) : string :=
  String.concat EmptyString (map turn_line h).

Definition prompt_header : string :=
  "You are a helpful AI assistant. Use the information from long-term memory if relevant."
    +:+ nl.

(** The part of the prompt that carries the long-term memory. *)
Definition memory_section (pairs : list (list message)) : string :=
  match pairs with
  | [] => "No long-term memory yet." +:+ nl
  | _ :: _ =>
      "Long-term memory: " +:+ join ". " (map (repr_list repr_message) pairs) +:+ nl
  end.

Lemma turn_lines_cons m h : turn_lines (m :: h) = turn_line m +:+ turn_lines h.
Proof.
  unfold turn_lines. destruct h as [|m' h]; simpl.
  - by rewrite append_empty_r.
  - reflexivity.
Qed.

Lemma turn_lines_app h1 h2 : turn_lines (h1 ++ h2) = turn_lines h1 +:+ turn_lines h2.
Proof.
  induction h1 as [|m h1 IH]; [done|].
  change ((m :: h1) ++ h2) with (m :: (h1 ++ h2)).
  by rewrite !turn_lines_cons, IH, append_assoc.
Qed.

Lemma fold_left_lines h : ∀ p,
  fold_left (λ prompt message,
               prompt +:+ (role message +:+ ": " +:+ content message +:+ nl)) h p
  = p +:+ turn_lines h.
Proof.
  induction h as [|m h IH]; intros p.
  - simpl. by rewrite append_empty_r.
  - simpl. rewrite IH, turn_lines_cons, append_assoc. reflexivity.
Qed.

(** The rendered long-term memory is the empty text only when the
    session holds no pair. *)
Lemma rendering_nonempty (p : list message) (ps : list (list message)) :
  ∃ c s, join ". " (map (repr_list repr_message) (p :: ps)) = String c s.
Proof.
  unfold join. simpl. destruct (map _ ps); unfold repr_list; eauto.
Qed.

Lemma chat_prompt_layout long_term_mem pairs h input :
  long_term_mem = join ". " (map (repr_list repr_message) pairs) →
  chat_prompt long_term_mem h input
  = prompt_header +:+ memory_section pairs +:+ turn_lines h
      +:+ "user: " +:+ input +:+ nl.
Proof.
  intros ->. unfold chat_prompt. rewrite fold_left_lines.
  fold prompt_header. rewrite !append_assoc. f_equal.
  destruct pairs as [|p ps]; [done|].
  destruct (rendering_nonempty p ps) as (c & s & Hs).
  rewrite Hs. unfold memory_section. by rewrite Hs.
Qed.

Lemma get_chat_history_fst sid (cs : gmap string (list message)) :
  (get_chat_history sid cs).1 = default [] (cs !! sid).
Proof. unfold get_chat_history. by destruct (cs !! sid). Qed.

Lemma get_chat_history_lookup sid sid' (cs : gmap string (list message)) :
  default [] ((get_chat_history sid cs).2 !! sid') = default [] (cs !! sid').
Proof.
  unfold get_chat_history. destruct (cs !! sid) eqn:Hs; [done|]. simpl.
  destruct (decide (sid = sid')) as [<-|Hne].
  - by rewrite lookup_insert_eq, Hs.
  - by rewrite lookup_insert_ne.
Qed.

Lemma chat_unfold {World} (create : request → World → outcome string * World)
    input sid st w :
  chat create input sid st w
  = let h := history st sid in
    let cs := (get_chat_history sid (chat_store st)).2 in
    match generate_response create
            (chat_prompt (get_long_term_memory sid (long_term_memory st)) h input) sid w with
    | (Raises e, w') => (Raises e, Stores cs (long_term_memory st), w')
    | (Returns response, w') =>
        (Returns response,
         Stores
           (<[sid := (h ++ [Message "user" input]) ++ [Message "assitant" response]]> cs)
           (update_long_term_memory sid input response (long_term_memory st)),
         w')
    end.
Proof.
  unfold chat, history.
  rewrite <- get_chat_history_fst.
  by destruct (get_chat_history sid (chat_store st)) as [h cs].
Qed.

(** C1.  When the boundary call inside [chat] returns a reply, [chat]
    returns it, the history of the session is the old history followed
    by two entries, the turn of the user and then the turn that carries
    the reply, and the long-term memory is updated for that turn; when the boundary call raises, [chat] lets the same
    exception escape, the history of every session is what it was (no
    turn of the user is recorded) and the long-term memory is untouched. *)
Theorem chat_history_update :
  ∀ (World : Type) (create : request → World → outcome string * World)
    (input sid : string) (st : stores) (w : World),
    match generate_response create
            (chat_prompt (get_long_term_memory sid (long_term_memory st))
               (history st sid) input) sid w with
    | (Returns response, w') =>
        ∃ st', chat create input sid st w = (Returns response, st', w')
          ∧ history st' sid
            = history st sid ++ [Message "user" input; Message "assitant" response]
          ∧ length (history st' sid) = length (history st sid) + 2
          ∧ long_term_memory st'
            = update_long_term_memory sid input response (long_term_memory st)
    | (Raises e, w') =>
        ∃ st', chat create input sid st w = (Raises e, st', w')
          ∧ (∀ sid', history st' sid' = history st sid')
          ∧ long_term_memory st' = long_term_memory st
    end.
Proof.
  intros World create input sid st w. rewrite chat_unfold. simpl.
  destruct (generate_response _ _ _ _) as [[response|e] w'].
  - eexists. split; [reflexivity|].
    assert (Hh : ∀ r, history
              (Stores (<[sid := (history st sid ++ [Message "user" input]) ++ [r]]>
                         (get_chat_history sid (chat_store st)).2)
                      (update_long_term_memory sid input response (long_term_memory st)))
              sid
            = history st sid ++ [Message "user" input; r]).
    { intros r. unfold history at 1. simpl.
      by rewrite lookup_insert_eq, <- app_assoc. }
    split_and!; [apply Hh| |done]. rewrite Hh, length_app. simpl. lia.
  - eexists. split; [reflexivity|]. split; [|done].
    intros sid'. unfold history. simpl. apply get_chat_history_lookup.
Qed.

(** C9.  Of the two entries that a successful [chat] appends, the first
    has the role user and the second has the role spelled a-s-s-i-t-a-n-t;
    neither carries the role assistant. *)
Theorem chat_roles :
  ∀ (World : Type) (create : request → World → outcome string * World)
    (input sid : string) (st : stores) (w : World)
    (response : string) (st' : stores) (w' : World),
    chat create input sid st w = (Returns response, st', w') →
    ∃ u a, history st' sid = history st sid ++ [u; a]
      ∧ role u = "user" ∧ content u = input
      ∧ role a = "assitant" ∧ content a = response
      ∧ role u ≠ "assistant" ∧ role a ≠ "assistant".
Proof.
  intros World create input sid st w response st' w'.
  rewrite chat_unfold. simpl.
  destruct (generate_response _ _ _ _) as [[r|e] w2]; [|done].
  intros [= -> <- ->].
  exists (Message "user" input), (Message "assitant" response).
  split_and!; try done.
  unfold history at 1. simpl. by rewrite lookup_insert_eq, <- app_assoc.
Qed.

Lemma chat_roles_witness :
  ∃ u a,
    history
      (chat Scripted.create "Hello! My name is Alice." "user_123" initial
         (Scripted.World [] [Returns "Hello, Alice! How can I assist you today?"])).1.2
      "user_123"
    = history initial "user_123" ++ [u; a]
    ∧ role u = "user" ∧ content u = "Hello! My name is Alice."
    ∧ role a = "assitant" ∧ content a = "Hello, Alice! How can I assist you today?"
    ∧ role u ≠ "assistant" ∧ role a ≠ "assistant".
Proof.
  apply (chat_roles _ Scripted.create "Hello! My name is Alice." "user_123" initial
           (Scripted.World [] [Returns "Hello, Alice! How can I assist you today?"])
           "Hello, Alice! How can I assist you today?" _ (Scripted.World [] [])).
  reflexivity.
Defined.

(** C8.  The one request that [chat] sends carries, as its user message,
    a prompt made of the fixed opening line, then the long-term memory of
    the session (or the line saying that there is none), then one line
    per turn of the history from the oldest to the newest, and last the
    line of the new input.  Whatever the boundary is, what [chat] returns
    or lets escape is its outcome on that request. *)
Theorem chat_prompt_order :
  ∀ (reply : request → outcome string) (input sid : string) (st : stores)
    (log : list request),
    let prompt :=
      prompt_header
      +:+ memory_section (long_term (long_term_memory st) sid)
      +:+ turn_lines (history st sid)
      +:+ "user: " +:+ input +:+ nl in
    let sent :=
      Request model
        [ Message "system" "You are a helpful assistant."; Message "user" prompt ]
        temperature 150 in
    (chat (Scripted.recording reply) input sid st log).2 = log ++ [sent]
    ∧ (∀ (World : Type) (create : request → World → outcome string * World) (w : World),
         (chat create input sid st w).1.1 = (create sent w).1)
    ∧ (∀ earlier later, history st sid = earlier ++ later →
         turn_lines (history st sid) = turn_lines earlier +:+ turn_lines later).
Proof.
  intros reply input sid st log prompt sent.
  assert (Hprompt :
    chat_prompt (get_long_term_memory sid (long_term_memory st)) (history st sid) input
    = prompt).
  { by apply (chat_prompt_layout _ (long_term (long_term_memory st) sid)). }
  split_and!.
  - rewrite chat_unfold. simpl.
    unfold generate_response, Scripted.recording. rewrite Hprompt.
    fold sent. by destruct (reply sent).
  - intros World create w. rewrite chat_unfold. simpl.
    unfold generate_response. rewrite Hprompt. fold sent.
    by destruct (create sent w) as [[r|e] w'].
  - intros earlier later ->. apply turn_lines_app.
Qed.

(** Two turns of one session, the first with an input of 24 characters
    and the second with one of 2: four history entries, one stored pair. *)
Example two_turns :
  let w := Scripted.World [] [Returns "Hello, Alice!"; Returns "Hi again."] in
  let '(_, st1, w1) := chat Scripted.create "Hello! My name is Alice." "user_123" initial w in
  let '(_, st2, _) := chat Scripted.create "Hi" "user_123" st1 w1 in
  history st2 "user_123"
  = [ Message "user" "Hello! My name is Alice."; Message "assitant" "Hello, Alice!";
      Message "user" "Hi"; Message "assitant" "Hi again." ]
  ∧ long_term (long_term_memory st2) "user_123"
    = [ turn_pair "Hello! My name is Alice." "Hello, Alice!" ].
Proof. vm_compute. split; reflexivity. Qed.

(** A boundary failure on the first turn of a session: the exception
    leaves [chat] and the session has the empty history. *)
Example failed_turn :
  let w := Scripted.World [] [Raises Scripted.RateLimitError] in
  let '(out, st1, _) := chat Scripted.create "Hello! My name is Alice." "user_123" initial w in
  out = Raises Scripted.RateLimitError
  ∧ history st1 "user_123" = []
  ∧ long_term (long_term_memory st1) "user_123" = [].
Proof. vm_compute. split_and!; reflexivity. Qed.

End ChatFacts.

(** * Properties of [solve] *)
Module CollabFacts.
Import Py Collab.

#[global] Instance message_eq_dec : EqDecision message.
Proof. solve_decision. Defined.

(** [c'] is [c] with at least one entry appended. *)
Definition extends (c c' : list message) : bool :=
  (length c <? length c') && bool_decide (take (length c) c' = c).

Section Loop.
Context {World : Type}.
Variable time_time : World → float * World.
Implicit Types steps pre post : list (@step_function World * Agent).

(** The state of the loop of [solve] once the steps [steps] are behind
    it: each was entered within the budget and handed back a context.
    [None] when one of them ended the loop instead. *)
Fixpoint passes steps (i : nat) (task : string) (timeout : Z) (start_time : float)
    (context : list message) (calls : list nat) (w : World)
    : option (list message * list nat * World) :=
  match steps with
  | [] => Some (context, calls, w)
  | (step_func, agent) :: rest =>
      let '(now, w1) := time_time w in
      if float_gt_int (now - start_time) timeout then None
      else
        match step_func agent task context w1 with
        | (Returns (Context result), w2) =>
            passes rest (S i) task timeout start_time result (calls ++ [i]) w2
        | _ => None
        end
  end.

(** The same, where moreover each step handed back the context it was
    given with something appended. *)
Fixpoint appends_through steps (i : nat) (task : string) (timeout : Z)
    (start_time : float) (context : list message) (calls : list nat) (w : World)
    : option (list message * list nat * World) :=
  match steps with
  | [] => Some (context, calls, w)
  | (step_func, agent) :: rest =>
      let '(now, w1) := time_time w in
      if float_gt_int (now - start_time) timeout then None
      else
        match step_func agent task context w1 with
        | (Returns (Context result), w2) =>
            if extends context result
            then appends_through rest (S i) task timeout start_time result (calls ++ [i]) w2
            else None
        | _ => None
        end
  end.

Lemma run_steps_app pre : ∀ post i task timeout start context calls w context' calls' w',
  passes pre i task timeout start context calls w = Some (context', calls', w') →
  run_steps time_time (pre ++ post) i task timeout start context calls w
  = run_steps time_time post (i + length pre) task timeout start context' calls' w'.
Proof.
  induction pre as [|[f a] pre IH]; intros post i task timeout start context calls w c' k' w'.
  - simpl. intros [= -> -> ->]. by rewrite Nat.add_0_r.
  - simpl. destruct (time_time w) as [now w1].
    destruct (float_gt_int _ _); [done|].
    destruct (f a task context w1) as [[[c|s]|e] w2]; try done.
    intros H. rewrite (IH _ _ _ _ _ _ _ _ _ _ _ H). f_equal. lia.
Qed.

Lemma passes_calls pre : ∀ i task timeout start context calls w context' calls' w',
  passes pre i task timeout start context calls w = Some (context', calls', w') →
  calls' = calls ++ seq i (length pre).
Proof.
  induction pre as [|[f a] pre IH]; intros i task timeout start context calls w c' k' w'.
  - simpl. intros [= _ <- _]. by rewrite app_nil_r.
  - simpl. destruct (time_time w) as [now w1].
    destruct (float_gt_int _ _); [done|].
    destruct (f a task context w1) as [[[c|s]|e] w2]; try done.
    intros H. rewrite (IH _ _ _ _ _ _ _ _ _ _ H), <- app_assoc. reflexivity.
Qed.

Lemma appends_through_passes steps : ∀ i task timeout start context calls w r,
  appends_through steps i task timeout start context calls w = Some r →
  passes steps i task timeout start context calls w = Some r
  ∧ length context + length steps ≤ length r.1.1.
Proof.
  induction steps as [|[f a] steps IH]; intros i task timeout start context calls w r.
  - simpl. intros [= <-]. simpl. split; [done|lia].
  - simpl. destruct (time_time w) as [now w1].
    destruct (float_gt_int _ _); [done|].
    destruct (f a task context w1) as [[[c|s]|e] w2]; try done.
    destruct (extends context c) eqn:Hext; [|done].
    intros H. destruct (IH _ _ _ _ _ _ _ _ H) as [Hp Hlen].
    split; [done|].
    apply andb_true_iff in Hext as [Hlt%Nat.ltb_lt _]. lia.
Qed.

(** The loop only ever adds to the log of invoked steps. *)
Lemma run_steps_invoked steps : ∀ i task timeout start context calls w,
  ∃ later,
    invoked (run_steps time_time steps i task timeout start context calls w)
    = calls ++ later.
Proof.
  induction steps as [|[f a] steps IH]; intros i task timeout start context calls w; simpl.
  - exists []. rewrite app_nil_r. by destruct (last context).
  - destruct (time_time w) as [now w1].
    destruct (float_gt_int _ _); simpl.
    { exists []. by rewrite app_nil_r. }
    destruct (f a task context w1) as [[[c|s]|e] w2]; simpl.
    + destruct (IH (S i) task timeout start c (calls ++ [i]) w2) as [later ->].
      exists (i :: later). by rewrite <- app_assoc.
    + by exists [i].
    + exists [i]. by destruct (is_Exception e).
Qed.

(** C2, as the code has it.  When a step raises an exception that is an
    instance of [Exception], [solve] returns the text [Error during
    collaboration: ] followed by [str(e)]; an exception outside that
    class is not caught and leaves [solve].  Either way the steps invoked
    are exactly those up to the raising one: none after it runs. *)
Theorem solve_error_containment :
  ∀ pre post (step_func : @step_function World) (agent : Agent)
    (task : string) (timeout : Z) (w : World)
    (start_time : float) (w0 : World) (context : list message) (calls : list nat)
    (w1 : World) (now : float) (w2 : World) (e : exn) (w3 : World),
    time_time w = (start_time, w0) →
    passes pre 0 task timeout start_time [] [] w0 = Some (context, calls, w1) →
    time_time w1 = (now, w2) →
    float_gt_int (now - start_time) timeout = false →
    step_func agent task context w2 = (Raises e, w3) →
    solve_with time_time (pre ++ (step_func, agent) :: post) task timeout w
    = Report
        (if is_Exception e then Returns (error_message e) else Raises e)
        (seq 0 (S (length pre))) w3.
Proof.
  intros pre post f a task timeout w t0 w0 c k w1 now w2 e w3 Hstart Hpre Hnow Hin Hraise.
  unfold solve_with. rewrite Hstart.
  rewrite (run_steps_app _ _ _ _ _ _ _ _ _ _ _ _ Hpre).
  apply passes_calls in Hpre as ->.
  rewrite seq_S. simpl. rewrite Hnow, Hin, Hraise.
  by destruct (is_Exception e).
Qed.

(** C3, as the code has it.  Before each step [solve] reads the clock and
    compares the elapsed time with the budget by [>]; when the elapsed
    time is greater, it returns the timeout text and invokes neither that
    step nor a later one.  With a timeout of 0 this happens before the
    first step when the elapsed time read there is above 0; when it is
    not (the clock gave the same reading twice), the first step is
    invoked. *)
Theorem solve_timeout_check :
  (∀ pre post (step : @step_function World * Agent)
     (task : string) (timeout : Z) (w : World)
     (start_time : float) (w0 : World) (context : list message) (calls : list nat)
     (w1 : World) (now : float) (w2 : World),
     time_time w = (start_time, w0) →
     passes pre 0 task timeout start_time [] [] w0 = Some (context, calls, w1) →
     time_time w1 = (now, w2) →
     float_gt_int (now - start_time) timeout = true →
     solve_with time_time (pre ++ step :: post) task timeout w
     = Report (Returns timeout_message) (seq 0 (length pre)) w2)
  ∧ (∀ post (step : @step_function World * Agent) (task : string) (w : World)
       (start_time : float) (w0 : World) (now : float) (w1 : World),
       time_time w = (start_time, w0) →
       time_time w0 = (now, w1) →
       (float_gt_int (now - start_time) 0 = true →
        solve_with time_time (step :: post) task 0 w
        = Report (Returns timeout_message) [] w1)
       ∧ (float_gt_int (now - start_time) 0 = false →
          ∃ later, invoked (solve_with time_time (step :: post) task 0 w) = 0 :: later)).
Proof.
  split.
  - intros pre post step task timeout w t0 w0 c k w1 now w2 Hstart Hpre Hnow Hout.
    unfold solve_with. rewrite Hstart.
    rewrite (run_steps_app _ _ _ _ _ _ _ _ _ _ _ _ Hpre).
    apply passes_calls in Hpre as ->.
    destruct step as [f a]. simpl. by rewrite Hnow, Hout.
  - intros post [f a] task w t0 w0 now w1 Hstart Hnow.
    unfold solve_with. rewrite Hstart. simpl. rewrite Hnow.
    split; intros ->; [done|].
    destruct (f a task [] w1) as [[[c|s]|e] w2]; simpl.
    + destruct (run_steps_invoked post 1 task 0 t0 c [0] w2) as [later Hlater].
      exists later. exact Hlater.
    + eauto.
    + destruct (is_Exception e); simpl; eauto.
Qed.

(** The return after the loop, for any list of five steps: when they are
    all entered within the budget, none raises, and each hands back the
    context it was given with something appended, the loop ends and the
    content of the last entry of the final context is returned.  The
    notebook's own list of steps never gets there, see
    [pipeline_ends_in_loop]. *)
Theorem solve_returns_last_entry :
  ∀ steps (task : string) (timeout : Z) (w : World)
    (start_time : float) (w0 : World) (context : list message) (calls : list nat)
    (w1 : World),
    length steps = 5 →
    time_time w = (start_time, w0) →
    appends_through steps 0 task timeout start_time [] [] w0 = Some (context, calls, w1) →
    ∃ m, last context = Some m
      ∧ solve_with time_time steps task timeout w
        = Report (Returns (content m)) (seq 0 5) w1.
Proof.
  intros steps task timeout w t0 w0 c k w1 Hlen Hstart Hrun.
  apply appends_through_passes in Hrun as [Hpass Hgrow]. simpl in Hgrow.
  destruct (last c) as [m|] eqn:Hlast.
  - exists m. split; [done|].
    unfold solve_with. rewrite Hstart.
    rewrite <- (app_nil_r steps).
    rewrite (run_steps_app _ _ _ _ _ _ _ _ _ _ _ _ Hpass).
    apply passes_calls in Hpass as ->.
    simpl. by rewrite Hlast, Hlen.
  - apply last_None in Hlast as ->. simpl in Hgrow. lia.
Qed.

End Loop.


Section Runs.
Import Scripted.

Definition clio : Agent := history_agent new_system.
Definition data : Agent := data_agent new_system.

(** A pipeline of five steps that all append to the context. *)
Definition appending_pipeline : list (@step_function world * Agent) :=
  [ (research_historical_context create, clio);
    (identify_data_needs create, data);
    (provide_historical_data create, clio);
    (analyze_data create, data);
    (analyze_data create, data) ].

Lemma solve_error_containment_witness :
  solve create time_time new_system "Q" 300
    (World [1000; 1001; 1002]%float [Returns "a"; Raises RateLimitError])
  = Report (Returns "Error during collaboration: Rate limit reached") [0; 1]
      (World [] []).
Proof.
  apply (solve_error_containment time_time
           [(research_historical_context create, clio)]
           [(provide_historical_data create, clio);
            (analyze_data create, data);
            (synthesize_final_answer create, clio)]
           (identify_data_needs create) data "Q" 300
           (World [1000; 1001; 1002]%float [Returns "a"; Raises RateLimitError])
           1000%float
           (World [1001; 1002]%float [Returns "a"; Raises RateLimitError])
           [Message "assistant" "History Agent: a"] [0]
           (World [1002]%float [Raises RateLimitError])
           1002%float
           (World [] [Raises RateLimitError])
           RateLimitError
           (World [] []));
    reflexivity.
Defined.

(** C2 as stated fails: the second step raises [KeyboardInterrupt], which
    [except Exception] does not match, and [solve] returns no text: the
    exception leaves it. *)
Lemma solve_lets_interrupt_escape :
  identify_data_needs create data "Q" [Message "assistant" "History Agent: a"]
    (World [] [Raises KeyboardInterrupt])
  = (Raises KeyboardInterrupt, World [] [])
  ∧ returned
      (solve create time_time new_system "Q" 300
         (World [1000; 1001; 1002]%float [Returns "a"; Raises KeyboardInterrupt]))
    = Raises KeyboardInterrupt.
Proof. split; reflexivity. Qed.

Lemma solve_timeout_check_witness :
  solve create time_time new_system "Q" 300
    (World [1000; 1001; 1002; 1400]%float [Returns "a"; Returns "b"])
  = Report (Returns timeout_message) [0; 1] (World [] [])
  ∧ solve create time_time new_system "Q" 0
      (World [1000; 1000.5]%float [Returns "a"])
    = Report (Returns timeout_message) [] (World [] [Returns "a"]).
Proof.
  split.
  - apply (proj1 (solve_timeout_check time_time)
             [(research_historical_context create, clio);
              (identify_data_needs create, data)]
             [(analyze_data create, data);
              (synthesize_final_answer create, clio)]
             (provide_historical_data create, clio) "Q" 300%Z
             (World [1000; 1001; 1002; 1400]%float [Returns "a"; Returns "b"])
             1000%float
             (World [1001; 1002; 1400]%float [Returns "a"; Returns "b"])
             [Message "assistant" "History Agent: a"; Message "assistant" "Data Agent: b"]
             [0; 1]
             (World [1400]%float [])
             1400%float
             (World [] []));
      reflexivity.
  - apply (proj2 (solve_timeout_check time_time)
             [(identify_data_needs create, data);
              (provide_historical_data create, clio);
              (analyze_data create, data);
              (synthesize_final_answer create, clio)]
             (research_historical_context create, clio) "Q"
             (World [1000; 1000.5]%float [Returns "a"])
             1000%float
             (World [1000.5]%float [Returns "a"])
             1000.5%float
             (World [] [Returns "a"]));
      reflexivity.
Defined.

(** C3 as stated fails for a timeout of 0: when the clock gives the same
    reading at the start and at the first check, the elapsed time is 0,
    which is not above 0, and the first step is invoked; the timeout text
    only comes at the second check. *)
Lemma solve_zero_timeout_runs_a_step :
  float_gt_int (1000 - 1000) 0 = false
  ∧ solve create time_time new_system "Q" 0
      (World [1000; 1000; 1002.5]%float [Returns "a"; Returns "b"])
    = Report (Returns timeout_message) [0] (World [] [Returns "b"]).
Proof. split; reflexivity. Qed.

Lemma solve_returns_last_entry_witness :
  ∃ m,
    last [ Message "assistant" "History Agent: a";
           Message "assistant" "Data Agent: b";
           Message "assistant" "History Agent: c";
           Message "assistant" "Data Agent: d";
           Message "assistant" "Data Agent: e" ] = Some m
    ∧ solve_with time_time appending_pipeline "Q" 300
        (World [1000; 1001; 1002; 1003; 1004; 1005]%float
           [Returns "a"; Returns "b"; Returns "c"; Returns "d"; Returns "e"])
      = Report (Returns (content m)) (seq 0 5) (World [] []).
Proof.
  apply (solve_returns_last_entry time_time appending_pipeline "Q" 300
           (World [1000; 1001; 1002; 1003; 1004; 1005]%float
              [Returns "a"; Returns "b"; Returns "c"; Returns "d"; Returns "e"])
           1000%float
           (World [1001; 1002; 1003; 1004; 1005]%float
              [Returns "a"; Returns "b"; Returns "c"; Returns "d"; Returns "e"])
           _ [0; 1; 2; 3; 4] (World [] []));
    reflexivity.
Defined.

End Runs.

Section Synthesis.
Context {World : Type}.
Variable create : request → World → outcome string * World.
Variable time_time : World → float * World.









End Synthesis.

Section SynthesisRuns.
Import Scripted.



End SynthesisRuns.

End CollabFacts.

(** * Runs of [chat] and the two stores *)
Module ChatRuns.
Import Py Memory MemoryFacts ChatFacts.

(** The two history entries that a replied turn leaves, when it was a
    turn of the session [sid]. *)
Definition turns_of (sid : string) (replied : list (string * string * string))
    : list message :=
  flat_map
    (λ c, if decide (c.1.1 = sid)
          then [Message "user" c.1.2; Message "assitant" c.2]
          else [])
    replied.

(** The calls of a run that got a reply, as (session id, input text,
    reply), given the outcomes of the calls in order. *)
Fixpoint transcript (calls : list (string * string)) (outs : list (outcome string))
    : list (string * string * string) :=
  match calls, outs with
  | (input_text, session_id) :: calls, Returns response :: outs =>
      (session_id, input_text, response) :: transcript calls outs
  | _ :: calls, Raises _ :: outs => transcript calls outs
  | _, _ => []
  end.

Section Runs.
Context {World : Type}.
Variable create : request → World → outcome string * World.

(** A run of [chat] calls, oldest first, each given as (input text,
    session id): the outcomes in call order, and the stores and the world
    at the end. *)
Fixpoint chats (calls : list (string * string)) (st : stores) (w : World)
    : list (outcome string) * stores * World :=
  match calls with
  | [] => ([], st, w)
  | (input_text, session_id) :: rest =>
      let '(out, st1, w1) := chat create input_text session_id st w in
      let '(outs, st2, w2) := chats rest st1 w1 in
      (out :: outs, st2, w2)
  end.

(** What one call does to the two dictionaries, by its outcome. *)
Lemma chat_effect input sid st w :
  let '(out, st', _) := chat create input sid st w in
  (∀ sid', history st' sid'
           = history st sid'
             ++ match out with
                | Returns r =>
                    if decide (sid = sid')
                    then [Message "user" input; Message "assitant" r] else []
                | Raises _ => []
                end)
  ∧ (∀ sid', sid ≠ sid' → chat_store st' !! sid' = chat_store st !! sid')
  ∧ long_term_memory st'
    = match out with
      | Returns r => update_long_term_memory sid input r (long_term_memory st)
      | Raises _ => long_term_memory st
      end.
Proof.
  rewrite chat_unfold. simpl.
  assert (Hne : ∀ sid', sid ≠ sid' →
    (get_chat_history sid (chat_store st)).2 !! sid' = chat_store st !! sid').
  { intros sid' Hne. unfold get_chat_history.
    destruct (chat_store st !! sid); [done|]. simpl. by rewrite lookup_insert_ne. }
  destruct (generate_response _ _ _ _) as [[r|e] w'].
  - split_and!; [|intros sid' H; simpl; rewrite lookup_insert_ne by done; auto|done].
    intros sid'. unfold history at 1. simpl.
    destruct (decide (sid = sid')) as [<-|Hd].
    + by rewrite lookup_insert_eq, <- app_assoc.
    + rewrite lookup_insert_ne by done. rewrite app_nil_r.
      apply get_chat_history_lookup.
  - split_and!; [|auto|done].
    intros sid'. rewrite app_nil_r. unfold history. simpl.
    apply get_chat_history_lookup.
Qed.

(** X1.  A call of [chat] for one session leaves every other session
    as it was, whether the boundary replies or raises: the history, the
    entry of the chat store and the entry of the long-term memory of
    another session id are the same after the call. *)
Theorem chat_other_sessions :
  ∀ (input sid : string) (st : stores) (w : World) (sid' : string),
    sid ≠ sid' →
    history (chat create input sid st w).1.2 sid' = history st sid'
    ∧ chat_store (chat create input sid st w).1.2 !! sid' = chat_store st !! sid'
    ∧ long_term_memory (chat create input sid st w).1.2 !! sid'
      = long_term_memory st !! sid'.
Proof.
  intros input sid st w sid' Hne.
  pose proof (chat_effect input sid st w) as H.
  destruct (chat create input sid st w) as [[out st'] w']. simpl.
  destruct H as (Hh & Hc & Hl). split_and!.
  - rewrite Hh. destruct out; [|by rewrite app_nil_r].
    rewrite decide_False by done. by rewrite app_nil_r.
  - by apply Hc.
  - rewrite Hl. destruct out; [|done]. by apply update_lookup_ne.
Qed.

(** A run, call by call: the history of a session and the long-term
    memory at its end. *)
Lemma chats_trace (calls : list (string * string)) :
  ∀ (st : stores) (w : World) (sid : string),
    history (chats calls st w).1.2 sid
    = history st sid ++ turns_of sid (transcript calls (chats calls st w).1.1)
    ∧ long_term_memory (chats calls st w).1.2
      = updates (transcript calls (chats calls st w).1.1) (long_term_memory st).
Proof.
  induction calls as [|[input s] calls IH]; intros st w sid.
  - simpl. by rewrite app_nil_r.
  - simpl.
    pose proof (chat_effect input s st w) as H.
    destruct (chat create input s st w) as [[out st1] w1].
    destruct H as (Hh & _ & Hl).
    specialize (IH st1 w1 sid).
    destruct (chats calls st1 w1) as [[outs st2] w2]. simpl in *.
    destruct IH as (IHh & IHl).
    rewrite IHh, IHl, Hh, Hl.
    destruct out as [r|e]; simpl.
    + split; [|done].
      unfold turns_of at 2. simpl. fold (turns_of sid (transcript calls outs)).
      by rewrite <- app_assoc.
    + split; [|done]. by rewrite app_nil_r.
Qed.

(** After a call for a session, the chat store holds the history of
    that session under its key, whatever the outcome. *)
Lemma chat_store_key input sid st w :
  chat_store (chat create input sid st w).1.2 !! sid
  = Some (history (chat create input sid st w).1.2 sid).
Proof.
  rewrite chat_unfold. simpl.
  destruct (generate_response _ _ _ _) as [[r|e] w']; unfold history; simpl.
  - by rewrite lookup_insert_eq.
  - unfold get_chat_history. destruct (chat_store st !! sid) as [h|] eqn:Hs; simpl.
    + by rewrite Hs.
    + by rewrite lookup_insert_eq.
Qed.

(** Whether a run holds a call for the session [sid], replied or not. *)
Definition called (sid : string) (calls : list (string * string)) : bool :=
  existsb (λ c, bool_decide (c.2 = sid)) calls.

Lemma turns_of_not_called sid calls : ∀ outs,
  called sid calls = false → turns_of sid (transcript calls outs) = [].
Proof.
  induction calls as [|[input s] calls IH]; intros outs; [done|]. simpl.
  intros [Hs Hrest]%orb_false_iff. apply bool_decide_eq_false in Hs. simpl in Hs.
  destruct outs as [|[r|e] outs]; [done| |by apply IH].
  unfold turns_of. simpl. rewrite decide_False by done. by apply IH.
Qed.

(** X2.  After any run of [chat] calls, the history of a session is what
    it was followed by the two entries of each replied call for that
    session, in call order, and the long-term memory is what the same
    replied calls give through [update_long_term_memory].  A call whose
    boundary raised adds no entry to any history and leaves the long-term
    memory alone; its only mark is in the chat store, which holds the
    history (the empty list for a session that never got a reply and was
    not there before) under every session id that a call of the run
    named, and is as it was at every other id.  Every call has an
    outcome. *)
Theorem chats_stores :
  ∀ (calls : list (string * string)) (st : stores) (w : World) (sid : string),
    history (chats calls st w).1.2 sid
    = history st sid ++ turns_of sid (transcript calls (chats calls st w).1.1)
    ∧ chat_store (chats calls st w).1.2 !! sid
      = (if called sid calls
         then Some (history (chats calls st w).1.2 sid)
         else chat_store st !! sid)
    ∧ long_term_memory (chats calls st w).1.2
      = updates (transcript calls (chats calls st w).1.1) (long_term_memory st)
    ∧ length (chats calls st w).1.1 = length calls.
Proof.
  intros calls st w sid.
  destruct (chats_trace calls st w sid) as [Hh Hl].
  split_and!; [done| |done|].
  - clear Hh Hl. revert st w.
    induction calls as [|[input s] calls IH]; intros st w; [done|].
    pose proof (chats_trace calls (chat create input s st w).1.2
                  (chat create input s st w).2 sid) as [Hh _].
    pose proof (chat_store_key input s st w) as Hkey.
    pose proof (chat_effect input s st w) as Heff.
    specialize (IH (chat create input s st w).1.2 (chat create input s st w).2).
    simpl. destruct (chat create input s st w) as [[out st1] w1]. simpl in *.
    destruct (chats calls st1 w1) as [[outs st2] w2]. simpl in *.
    rewrite IH. destruct (called sid calls) eqn:Hc.
    + by rewrite orb_true_r.
    + rewrite orb_false_r.
      rewrite Hh, (turns_of_not_called _ _ _ Hc), app_nil_r.
      destruct (decide (s = sid)) as [->|Hne].
      * by rewrite bool_decide_eq_true_2.
      * rewrite bool_decide_eq_false_2 by done.
        destruct Heff as (_ & Hother & _). by apply Hother.
  - clear. revert st w. induction calls as [|[input s] calls IH]; intros st w; [done|].
    simpl. destruct (chat create input s st w) as [[out st1] w1].
    specialize (IH st1 w1).
    destruct (chats calls st1 w1) as [[outs st2] w2]. simpl in *. by rewrite IH.
Qed.

Lemma turns_of_elem sid i o replied :
  (sid, i, o) ∈ replied →
  ∃ h1 h2, turns_of sid replied
           = h1 ++ [Message "user" i; Message "assitant" o] ++ h2.
Proof.
  induction replied as [|c replied IH]; [by intros ?%elem_of_nil|].
  intros [<-|Hin]%elem_of_cons.
  - exists [], (turns_of sid replied).
    unfold turns_of. simpl. by rewrite decide_True.
  - destruct (IH Hin) as (h1 & h2 & Heq).
    exists ((if decide (c.1.1 = sid)
             then [Message "user" c.1.2; Message "assitant" c.2] else []) ++ h1), h2.
    unfold turns_of in *. simpl. by rewrite Heq, <- app_assoc.
Qed.

(** X3.  Starting from the empty dictionaries, after any run of [chat]
    calls every session holds at most 5 pairs in long-term memory, and
    each pair it holds comes from a replied turn of that session with an
    input longer than 20 characters: the history of the session has,
    next to each other, the user entry with that input and the reply
    entry with that output. *)
Theorem stored_pairs_in_history :
  ∀ (calls : list (string * string)) (w : World) (sid : string),
    length (long_term (long_term_memory (chats calls initial w).1.2) sid) ≤ 5
    ∧ (∀ p, p ∈ long_term (long_term_memory (chats calls initial w).1.2) sid →
         ∃ i o h1 h2,
           p = turn_pair i o ∧ 20 < String.length i
           ∧ history (chats calls initial w).1.2 sid
             = h1 ++ [Message "user" i; Message "assitant" o] ++ h2).
Proof.
  intros calls w sid.
  destruct (chats_trace calls initial w sid) as (Hh & Hl).
  rewrite Hl, Hh. simpl. rewrite updates_from_empty. split.
  - apply last_items_length.
  - intros p Hin%elem_of_last_items%elem_of_admitted.
    destruct Hin as (i & o & -> & Hlen & Hin).
    destruct (turns_of_elem _ _ _ _ Hin) as (h1 & h2 & Heq).
    exists i, o, h1, h2. by rewrite Heq.
Qed.

End Runs.

(** A first call for a session whose boundary raises: the chat store
    gets the key with the empty list, and nothing else. *)
Example failed_first_call :
  (chats Scripted.create [("Hello! My name is Alice.", "user_123")] initial
     (Scripted.World [] [Raises Scripted.RateLimitError])).1.2
  = Stores {[ "user_123" := [] ]} ∅.
Proof. reflexivity. Qed.

Lemma chat_other_sessions_witness :
  history
    (chat Scripted.create "Hello! My name is Alice." "user_123"
       (Stores {[ "user_456" := [Message "user" "Hi"; Message "assitant" "Hello"] ]} ∅)
       (Scripted.World [] [Returns "Hello, Alice!"])).1.2
    "user_456"
  = [Message "user" "Hi"; Message "assitant" "Hello"].
Proof.
  refine (proj1 (chat_other_sessions Scripted.create "Hello! My name is Alice." "user_123"
           (Stores {[ "user_456" := [Message "user" "Hi"; Message "assitant" "Hello"] ]} ∅)
           (Scripted.World [] [Returns "Hello, Alice!"]) "user_456" _)).
  discriminate.
Defined.

End ChatRuns.

(** * The store accessors and the text of the prompt *)
Module StoreFacts.
Import Py Memory MemoryFacts ChatFacts.

(** [str.isprintable()]: every character is printable. *)
Fixpoint str_isprintable (s : string) : bool :=
  match s with
  | EmptyString => true
  | String c r => isprintable c && str_isprintable r
  end.

Definition newline : ascii := ascii_of_nat 10.

(** X4.  [get_chat_history] is get-or-create: afterwards the key holds
    the list it returned; an existing list is returned and the store is
    not changed; a missing key gets the empty list; no other key is
    touched; and a second call returns the same list and changes
    nothing. *)
Theorem get_chat_history_get_or_create :
  ∀ (sid : string) (cs : gmap string (list message)),
    (get_chat_history sid cs).2 !! sid = Some (get_chat_history sid cs).1
    ∧ (∀ h, cs !! sid = Some h → get_chat_history sid cs = (h, cs))
    ∧ (cs !! sid = None → get_chat_history sid cs = ([], <[sid := []]> cs))
    ∧ (∀ sid', sid ≠ sid' → (get_chat_history sid cs).2 !! sid' = cs !! sid')
    ∧ get_chat_history sid (get_chat_history sid cs).2 = get_chat_history sid cs.
Proof.
  intros sid cs. unfold get_chat_history.
  destruct (cs !! sid) as [h|] eqn:Hs; simpl.
  - rewrite Hs. split_and!; try done. by intros h' [= ->].
  - rewrite lookup_insert_eq. split_and!; try done.
    intros sid' Hne. by rewrite lookup_insert_ne.
Qed.


Lemma str_isprintable_app a b :
  str_isprintable (a +:+ b) = str_isprintable a && str_isprintable b.
Proof.
  induction a as [|c a IH]; [done|].
  change (str_isprintable (String c (a +:+ b))
          = str_isprintable (String c a) && str_isprintable b).
  simpl. by rewrite IH, andb_assoc.
Qed.

Lemma repr_char_printable q c :
  q = squote ∨ q = dquote → str_isprintable (repr_char q c) = true.
Proof.
  intros [->| ->]; destruct c as [[] [] [] [] [] [] [] []]; reflexivity.
Qed.

Lemma repr_str_printable s : str_isprintable (repr_str s) = true.
Proof.
  unfold repr_str.
  assert (Hq : repr_quote s = squote ∨ repr_quote s = dquote).
  { unfold repr_quote. destruct (_ && _); auto. }
  assert (Hqp : isprintable (repr_quote s) = true) by (by destruct Hq as [-> | ->]).
  change (isprintable (repr_quote s)
          && str_isprintable (repr_body (repr_quote s) s +:+ String (repr_quote s) EmptyString)
          = true).
  rewrite Hqp, str_isprintable_app. simpl. rewrite Hqp. simpl.
  rewrite andb_true_r.
  generalize (repr_quote s) Hq. clear. intros q Hq.
  induction s as [|c s IH]; [done|].
  change (str_isprintable (repr_char q c +:+ repr_body q s) = true).
  by rewrite str_isprintable_app, repr_char_printable, IH.
Qed.

Lemma repr_message_printable m : str_isprintable (repr_message m) = true.
Proof.
  unfold repr_message. rewrite !str_isprintable_app, !repr_str_printable. reflexivity.
Qed.

Lemma join_printable sep parts :
  str_isprintable sep = true →
  Forall (λ p, str_isprintable p = true) parts →
  str_isprintable (join sep parts) = true.
Proof.
  intros Hsep Hall. unfold join.
  induction Hall as [|p parts Hp Hall IH]; [done|].
  destruct parts as [|p' parts]; [done|].
  change (str_isprintable (p +:+ sep +:+ String.concat sep (p' :: parts)) = true).
  by rewrite !str_isprintable_app, Hp, Hsep, IH.
Qed.

Lemma occurs_printable c s :
  isprintable c = false → str_isprintable s = true → occurs c s = false.
Proof.
  intros Hc. induction s as [|d s IH]; [done|]. simpl.
  intros [Hd Hs]%andb_true_iff. rewrite (IH Hs), orb_false_r.
  apply bool_decide_eq_false. intros <-. congruence.
Qed.

(** X6.  Whatever inputs and replies are stored, the text that
    [get_long_term_memory] returns consists of printable characters
    only: [repr] escapes line breaks and control characters, so the text
    holds no line break and takes a single line of the prompt. *)
Theorem get_long_term_memory_one_line :
  ∀ (sid : string) (ltm : gmap string (list (list message))),
    str_isprintable (get_long_term_memory sid ltm) = true
    ∧ occurs newline (get_long_term_memory sid ltm) = false.
Proof.
  intros sid ltm.
  assert (Hp : str_isprintable (get_long_term_memory sid ltm) = true).
  { unfold get_long_term_memory. apply join_printable; [done|].
    apply Forall_forall. intros x [p [<- _]]%list_elem_of_In%in_map_iff.
    unfold repr_list. rewrite !str_isprintable_app. simpl.
    rewrite andb_true_r. apply join_printable; [done|].
    apply Forall_forall. intros y [m [<- _]]%list_elem_of_In%in_map_iff.
    apply repr_message_printable. }
  split; [done|]. by apply occurs_printable.
Qed.

(** X7.  The history lines of the prompt are not escaped: a turn whose
    content holds a line break followed by a role, a colon and more text
    gives [chat] the same prompt as two separate turns would. *)
Theorem chat_prompt_line_break :
  ∀ (long_term_mem : string) (h : list message) (r c1 r2 c2 input : string),
    chat_prompt long_term_mem (h ++ [Message r (c1 +:+ nl +:+ r2 +:+ ": " +:+ c2)]) input
    = chat_prompt long_term_mem (h ++ [Message r c1; Message r2 c2]) input.
Proof.
  intros ltm h r c1 r2 c2 input. unfold chat_prompt.
  rewrite !fold_left_lines, !turn_lines_app.
  do 3 f_equal.
  rewrite !turn_lines_cons. unfold turn_line, turn_lines. simpl.
  by rewrite !append_assoc, !append_empty_r.
Qed.

(** X15.  The long-term memory as a window: after any run of
    [update_long_term_memory] calls from the empty dictionary, with calls
    for several sessions interleaved, the store of a session is exactly
    the last five of the pairs offered to it with an input longer than 20
    characters, in call order; and a run that holds no call for a session
    leaves its entry as it was, in any store. *)
Theorem long_term_window :
  ∀ (calls : list (string * string * string)) (sid : string),
    long_term (updates calls ∅) sid = last_items 5 (admitted sid calls)
    ∧ (∀ ltm : gmap string (list (list message)),
         touched sid calls = false → updates calls ltm !! sid = ltm !! sid).
Proof.
  intros calls sid. split.
  - unfold long_term at 1. rewrite updates_lookup.
    destruct (touched sid calls) eqn:Ht; [done|].
    by rewrite lookup_empty, (admitted_untouched _ _ Ht).
  - intros ltm Ht. by rewrite updates_lookup, Ht.
Qed.

End StoreFacts.

From Stdlib Require Import FloatAxioms.

(** * The notebook's pipeline as a whole *)
Module PipelineFacts.
Import Py Collab CollabFacts.

Section Pipeline.
Context {World : Type}.
Variable create : request → World → outcome string * World.
Variable time_time : World → float * World.

(** The boundary gave the outcome [o] to some request. *)
Definition from_boundary (o : outcome string) : Prop :=
  ∃ (r : request) (w1 w2 : World), create r w1 = (o, w2).

(** X16.  The empty context.  [Agent.process] sends the same request
    for an empty context list as for no context.  The three steps that
    read the last entry of the context raise [IndexError] on an empty
    context before any call of the boundary; a pipeline that starts with
    one of them, entered within the budget, makes [solve] return the
    error text for that exception after that one step. *)
Theorem empty_context :
  ∀ (a : Agent) (task : string) (w : World),
    process create a task (Some []) w = process create a task None w
    ∧ identify_data_needs create a task [] w = (Raises IndexError, w)
    ∧ provide_historical_data create a task [] w = (Raises IndexError, w)
    ∧ analyze_data create a task [] w = (Raises IndexError, w)
    ∧ (∀ (f : @step_function World) post timeout start_time w0 now w1,
         f a task [] w1 = (Raises IndexError, w1) →
         time_time w = (start_time, w0) →
         time_time w0 = (now, w1) →
         float_gt_int (now - start_time) timeout = false →
         solve_with time_time ((f, a) :: post) task timeout w
         = Report (Returns "Error during collaboration: list index out of range") [0] w1).
Proof.
  intros a task w. split_and!; try reflexivity.
  intros f post timeout t0 w0 now w1 Hf Hstart Hnow Hin.
  unfold solve_with. rewrite Hstart. simpl. by rewrite Hnow, Hin, Hf.
Qed.

(** Entering a step of the loop: the clock is read and the budget
    checked; the timeout branch ends the goal by its first disjunct. *)
Ltac enter_step :=
  cbn [run_steps];
  match goal with
  | |- context [time_time ?w] => destruct (time_time w) as [? ?]
  end;
  match goal with
  | |- context [float_gt_int ?x ?n] => destruct (float_gt_int x n); [by left|]
  end.

(** The boundary call of a step: a raise ends the goal by the second or
    third disjunct, by the class of the exception. *)
Ltac boundary_call :=
  match goal with
  | |- context [create ?r ?w] =>
      let H := fresh "H" in
      let He := fresh "He" in
      let e := fresh "e" in
      let reply := fresh "reply" in
      let w' := fresh "w" in
      destruct (create r w) as [[reply|e] w'] eqn:H; cbn;
      [ | destruct (is_Exception e) eqn:He;
          [ right; left | right; right; left ];
          exists e; (split_and!; [exact He | eexists _, _, _; exact H | reflexivity]) ]
  end.

(** X8.  For a boundary whose completions always carry text (the
    [content] of the reply is a string, never [None]), what [solve]
    hands to its caller is one of four things: the timeout text; the
    error text built from an exception that the boundary raised and that
    is an instance of [Exception]; an exception that the boundary raised
    and that is not one, escaping; or a reply of the boundary, verbatim.
    In particular [list index out of range] never comes from the
    pipeline itself.  A reply without text is outside this statement. *)
Theorem solve_outcome :
  ∀ (self : HistoryDataCollaborationSystem) (task : string) (timeout : Z) (w : World),
    returned (solve create time_time self task timeout w) = Returns timeout_message
    ∨ (∃ e, is_Exception e = true ∧ from_boundary (Raises e)
            ∧ returned (solve create time_time self task timeout w)
              = Returns (error_message e))
    ∨ (∃ e, is_Exception e = false ∧ from_boundary (Raises e)
            ∧ returned (solve create time_time self task timeout w) = Raises e)
    ∨ (∃ r, from_boundary (Returns r)
            ∧ returned (solve create time_time self task timeout w) = Returns r).
Proof.
  intros self task timeout w.
  unfold solve, solve_with, steps_of.
  destruct (time_time w) as [t0 w0].
  enter_step. unfold research_historical_context, process. boundary_call.
  enter_step. unfold identify_data_needs, process. cbn. boundary_call.
  enter_step. unfold provide_historical_data, process. cbn. boundary_call.
  enter_step. unfold analyze_data, process. cbn. boundary_call.
  enter_step. unfold synthesize_final_answer, process. cbn. boundary_call.
  right; right; right. eexists. split; [eexists _, _, _; eassumption|reflexivity].
Qed.

Lemma run_steps_order (steps : list (@step_function World * Agent)) :
  ∀ i task timeout start context calls w,
  ∃ k, k ≤ length steps
    ∧ invoked (run_steps time_time steps i task timeout start context calls w)
      = calls ++ seq i k.
Proof.
  induction steps as [|[f a] steps IH]; intros i task timeout start context calls w; simpl.
  - exists 0. simpl. rewrite app_nil_r. split; [lia|]. by destruct (last context).
  - destruct (time_time w) as [now w1].
    destruct (float_gt_int _ _); simpl.
    { exists 0. simpl. rewrite app_nil_r. split; [lia|done]. }
    destruct (f a task context w1) as [[[c|s]|e] w2]; simpl.
    + destruct (IH (S i) task timeout start c (calls ++ [i]) w2) as (k & Hk & ->).
      exists (S k). simpl. rewrite <- app_assoc. split; [lia|done].
    + exists 1. split; [lia|done].
    + exists 1. split; [lia|]. by destruct (is_Exception e).
Qed.

(** X9.  Whatever the steps do, [solve] invokes them in their order,
    each at most once and none after one was left out: the steps invoked
    are the first [k] of the list, for some [k]; for the notebook's
    pipeline that is at most five. *)
Theorem solve_invokes_in_order :
  ∀ (steps : list (@step_function World * Agent)) (task : string) (timeout : Z)
    (w : World),
    (∃ k, k ≤ length steps
       ∧ invoked (solve_with time_time steps task timeout w) = seq 0 k)
    ∧ (∀ self, ∃ k, k ≤ 5
         ∧ invoked (solve create time_time self task timeout w) = seq 0 k).
Proof.
  intros steps task timeout w.
  assert (H : ∀ steps' : list (@step_function World * Agent),
    ∃ k, k ≤ length steps'
      ∧ invoked (solve_with time_time steps' task timeout w) = seq 0 k).
  { intros steps'. unfold solve_with. destruct (time_time w) as [t0 w0].
    destruct (run_steps_order steps' 0 task timeout t0 [] [] w0) as (k & Hk & ->).
    by exists k. }
  split; [apply H|]. intros self. apply (H (steps_of create self)).
Qed.

(** X10.  With a negative timeout no step ever runs, as long as the
    clock has not gone backwards between the start and the first check
    (the elapsed time read there is at least 0): [solve] returns the
    timeout text at once. *)
Theorem solve_negative_timeout :
  ∀ (step : @step_function World * Agent) (post : list (@step_function World * Agent))
    (task : string) (timeout : Z) (w : World)
    (start_time : float) (w0 : World) (now : float) (w1 : World),
    (timeout < 0)%Z →
    time_time w = (start_time, w0) →
    time_time w0 = (now, w1) →
    (0 <=? now - start_time)%float = true →
    solve_with time_time (step :: post) task timeout w
    = Report (Returns timeout_message) [] w1.
Proof.
  intros [f a] post task timeout w t0 w0 now w1 Hneg Hstart Hnow Hle.
  unfold solve_with. rewrite Hstart. simpl. rewrite Hnow.
  assert (Hgt : float_gt_int (now - t0) timeout = true); [|by rewrite Hgt].
  rewrite FloatAxioms.leb_spec in Hle.
  change (Prim2SF 0) with (S754_zero false) in Hle.
  unfold float_gt_int.
  destruct (Prim2SF (now - t0)) as [s|s| |s m e]; simpl in Hle.
  - by apply Z.ltb_lt.
  - by destruct s.
  - done.
  - destruct s; [done|].
    destruct (0 <=? e)%Z eqn:He; apply Z.ltb_lt.
    + apply Z.leb_le in He.
      assert (0 < 2 ^ e)%Z by (by apply Z.pow_pos_nonneg). nia.
    + apply Z.leb_gt in He.
      assert (0 < 2 ^ (- e))%Z by (apply Z.pow_pos_nonneg; lia). nia.
Qed.

End Pipeline.

Lemma solve_negative_timeout_witness :
  solve Scripted.create Scripted.time_time new_system "Q" (-1)
    (Scripted.World [1000; 1000]%float [Returns "a"])
  = Report (Returns timeout_message) [] (Scripted.World [] [Returns "a"]).
Proof.
  apply (solve_negative_timeout Scripted.time_time
           (research_historical_context Scripted.create, clio)
           [ (identify_data_needs Scripted.create, data);
             (provide_historical_data Scripted.create, clio);
             (analyze_data Scripted.create, data);
             (synthesize_final_answer Scripted.create, clio) ]
           "Q" (-1)
           (Scripted.World [1000; 1000]%float [Returns "a"])
           1000%float (Scripted.World [1000]%float [Returns "a"])
           1000%float (Scripted.World [] [Returns "a"]));
    [lia | reflexivity | reflexivity | reflexivity].
Defined.

(** A world that, besides the clock readings and the completions still
    to come, keeps the requests that were sent, oldest first. *)
Record recorded := Recorded {
  ticks : list float;
  answers : list (outcome string);
  sent : list request
}.

Definition recorded_time (w : recorded) : float * recorded :=
  match ticks w with
  | t :: rest => (t, Recorded rest (answers w) (sent w))
  | [] => (0%float, w)
  end.

Definition recorded_create (r : request) (w : recorded) : outcome string * recorded :=
  match answers w with
  | o :: rest => (o, Recorded (ticks w) rest (sent w ++ [r]))
  | [] => (Raises (Exn true "Connection error."), Recorded (ticks w) [] (sent w ++ [r]))
  end.

(** The request of [Agent.process] for an agent, a context and a task
    text. *)
Definition asks (a : Agent) (context : list message) (task_text : string) : request :=
  Request "gpt-4o-mini"
    (Message "system"
       ("You are " +:+ name a +:+ ", a " +:+ agent_role a
        +:+ ". Your skills include: " +:+ join ", " (skills a)
        +:+ ". Respond to the task based on your role and skills.")
     :: context ++ [Message "user" ("Task: " +:+ task_text)])
    temperature 1000.

(** X11.  A run of the notebook's pipeline in which every check is
    within the budget and the boundary replies five times: [solve]
    returns the fifth reply verbatim after invoking the five steps in
    order, reading the clock six times.  Each of the first four replies
    is appended to the context under the label of its agent and is
    quoted, label included, in the task text of the next request; the
    task given to [solve] is part of the first request only. *)
Theorem solve_success_run :
  ∀ (self : HistoryDataCollaborationSystem) (task : string) (timeout : Z)
    (t0 t1 t2 t3 t4 t5 : float) (r1 r2 r3 r4 r5 : string),
    float_gt_int (t1 - t0) timeout = false →
    float_gt_int (t2 - t0) timeout = false →
    float_gt_int (t3 - t0) timeout = false →
    float_gt_int (t4 - t0) timeout = false →
    float_gt_int (t5 - t0) timeout = false →
    let a1 := Message "assistant" ("History Agent: " +:+ r1) in
    let a2 := Message "assistant" ("Data Agent: " +:+ r2) in
    let a3 := Message "assistant" ("History Agent: " +:+ r3) in
    let a4 := Message "assistant" ("Data Agent: " +:+ r4) in
    solve recorded_create recorded_time self task timeout
      (Recorded [t0; t1; t2; t3; t4; t5]
         [Returns r1; Returns r2; Returns r3; Returns r4; Returns r5] [])
    = Report (Returns r5) [0; 1; 2; 3; 4]
        (Recorded [] []
           [ asks (history_agent self) []
               ("Provide relevant historical context and information for the following task: "
                +:+ task);
             asks (data_agent self) [a1]
               ("Based on the historical context, what specific data or statistical information would be helpful to answer the original question? Historical context: "
                +:+ "History Agent: " +:+ r1);
             asks (history_agent self) [a1; a2]
               ("Based on the data needs identified, provide relevant historical data or statistics. Data needs: "
                +:+ "Data Agent: " +:+ r2);
             asks (data_agent self) [a1; a2; a3]
               ("Analyze the historical data provided and describe any trends or insights relevant to the original task. Historical data: "
                +:+ "History Agent: " +:+ r3);
             asks (history_agent self) [a1; a2; a3; a4]
               "Based on all the historical context, data, and analysis, provide a comprehensive answer to the original task." ]).
Proof.
  intros self task timeout t0 t1 t2 t3 t4 t5 r1 r2 r3 r4 r5 H1 H2 H3 H4 H5 a1 a2 a3 a4.
  unfold solve, solve_with, steps_of. cbn.
  rewrite H1. cbn. rewrite H2. cbn. rewrite H3. cbn. rewrite H4. cbn. rewrite H5.
  reflexivity.
Qed.

Lemma solve_success_run_witness :
  returned
    (solve recorded_create recorded_time new_system "Q" 300
       (Recorded [1000; 1001; 1002; 1003; 1004; 1005]%float
          [Returns "a"; Returns "b"; Returns "c"; Returns "d"; Returns "e"] []))
  = Returns "e".
Proof.
  refine (f_equal returned
            (solve_success_run new_system "Q" 300
               1000 1001 1002 1003 1004 1005 "a" "b" "c" "d" "e" _ _ _ _ _));
    reflexivity.
Defined.

End PipelineFacts.

(** * The self-improving agent notebook (src/unnamed/part_000) *)
Module SelfImproving.
Import Py.

(** [class ChatMessageHistory]. *)
Record ChatMessageHistory := mkHistory { messages : list message }.

Definition add_message (role content : string) (self : ChatMessageHistory)
    : ChatMessageHistory :=
  mkHistory (messages self ++ [Message role content]).

Definition get_history (self : ChatMessageHistory) : list message := messages self.

(** [class SelfImprovingAgent]: the attributes set by [__init__]. *)
Record SelfImprovingAgent := mkAgent {
  llm_model : string;
  store : gmap string ChatMessageHistory;
  insights : string
}.

(** [SelfImprovingAgent()]. *)
Definition new_agent : SelfImprovingAgent := mkAgent "gpt-4o-mini" ∅ EmptyString.

(** [get_chat_history]: the history object under the key, created on
    first reference.  The object is shared with the store, so a later
    [add_message] on it is written back under the key. *)
Definition get_chat_history (session_id : string) (self : SelfImprovingAgent)
    : ChatMessageHistory * SelfImprovingAgent :=
  match store self !! session_id with
  | Some h => (h, self)
  | None =>
      (mkHistory [],
       mkAgent (llm_model self) (<[session_id := mkHistory []]> (store self)) (insights self))
  end.

(** [self.get_chat_history(session_id).add_message(role, content)]. *)
Definition record (session_id role content : string) (self : SelfImprovingAgent)
    : SelfImprovingAgent :=
  let '(h, self1) := get_chat_history session_id self in
  mkAgent (llm_model self1)
    (<[session_id := add_message role content h]> (store self1))
    (insights self1).

(** The turns of a session as a reader of the store sees them. *)
Definition turns (self : SelfImprovingAgent) (session_id : string) : list message :=
  match store self !! session_id with
  | Some h => get_history h
  | None => []
  end.

Section Boundary.
Context {World : Type}.
Variable create : request → World → outcome string * World.

(** The loop that copies the role and the content of each turn. *)
Definition copy_turns (history messages : list message) : list message :=
  fold_left (λ messages message, messages ++ [Message (role message) (content message)])
    history messages.

Definition reflect (history : list message) (w : World) : outcome string * World :=
  let prompt :=
    "Based on the following conversation history, provide insights on how to improve responses:"
      +:+ nl in
  let messages := [Message "system" prompt] in
  let messages := copy_turns history messages in
  let messages := messages ++ [Message "system" "Generate insights for improvement:"] in
  create (Request "gpt-4o-mini" messages temperature 100) w.

Definition learn (insights : string) (w : World) : outcome string * World :=
  let prompt :=
    "Based on these insights, update the agent's knowledge and behavior:" +:+ nl
      +:+ insights +:+ nl +:+ "Summarize the key points to remember:" in
  let messages :=
    [ Message "system" "You are an AI agent that learns from its interactions.";
      Message "user" prompt ] in
  create (Request "gpt-4o-mini" messages temperature 100) w.

Definition respond (human_input session_id : string) (self : SelfImprovingAgent)
    (w : World) : outcome string * SelfImprovingAgent * World :=
  let '(h, self1) := get_chat_history session_id self in
  let history := get_history h in
  let prompt :=
    "You are an AI assistant. Given the conversation history, generate a response to the following input:"
      +:+ nl in
  let messages := [Message "system" prompt] in
  let messages := copy_turns history messages in
  let messages := messages ++ [Message "user" human_input] in
  match create (Request (llm_model self1) messages temperature 150) w with
  | (Raises e, w') => (Raises e, self1, w')
  | (Returns ai_response, w') =>
      let self2 := record session_id "user" human_input self1 in
      let self3 := record session_id "assistant" ai_response self2 in
      (Returns ai_response, self3, w')
  end.

Definition reflect_and_learn (session_id : string) (self : SelfImprovingAgent)
    (w : World) : outcome string * SelfImprovingAgent * World :=
  let '(h, self1) := get_chat_history session_id self in
  let history := get_history h in
  match reflect history w with
  | (Raises e, w1) => (Raises e, self1, w1)
  | (Returns new_insights, w1) =>
      let self2 := mkAgent (llm_model self1) (store self1) new_insights in
      match learn (insights self2) w1 with
      | (Raises e, w2) => (Raises e, self2, w2)
      | (Returns learned_points, w2) =>
          let self3 :=
            record session_id "system" ("[SYSTEM] Agent learned: " +:+ learned_points) self2 in
          (Returns learned_points, self3, w2)
      end
  end.

End Boundary.

End SelfImproving.

(** * Properties of the self-improving agent *)
Module SelfImprovingFacts.
Import Py SelfImproving.

(** The system line that opens every request of [respond]. *)
Definition respond_prompt : string :=
  "You are an AI assistant. Given the conversation history, generate a response to the following input:"
    +:+ nl.

(** The system entry that a learning round leaves in the history. *)
Definition learned_note (learned_points : string) : message :=
  Message "system" ("[SYSTEM] Agent learned: " +:+ learned_points).

Lemma copy_turns_app history : ∀ ms, copy_turns history ms = ms ++ history.
Proof.
  unfold copy_turns. induction history as [|[r c] history IH]; intros ms; simpl.
  - by rewrite app_nil_r.
  - by rewrite IH, <- app_assoc.
Qed.

Lemma get_chat_history_view sid self :
  get_history (get_chat_history sid self).1 = turns self sid
  ∧ store (get_chat_history sid self).2 !! sid = Some (get_chat_history sid self).1
  ∧ (∀ sid', turns (get_chat_history sid self).2 sid' = turns self sid')
  ∧ insights (get_chat_history sid self).2 = insights self
  ∧ llm_model (get_chat_history sid self).2 = llm_model self.
Proof.
  unfold get_chat_history, turns.
  destruct (store self !! sid) as [h|] eqn:Hs; simpl; split_and!; try done.
  - by rewrite lookup_insert_eq.
  - intros sid'. destruct (decide (sid = sid')) as [<-|Hne].
    + by rewrite lookup_insert_eq, Hs.
    + by rewrite lookup_insert_ne.
Qed.

Lemma record_view sid r c self :
  turns (record sid r c self) sid = turns self sid ++ [Message r c]
  ∧ (∀ sid', sid ≠ sid' → turns (record sid r c self) sid' = turns self sid')
  ∧ insights (record sid r c self) = insights self
  ∧ llm_model (record sid r c self) = llm_model self.
Proof.
  unfold record.
  destruct (get_chat_history_view sid self) as (Hh & _ & Ht & Hi & Hm).
  destruct (get_chat_history sid self) as [h self1]. simpl in *.
  split_and!; try done.
  - unfold turns at 1. simpl. rewrite lookup_insert_eq. simpl.
    unfold get_history in Hh. by rewrite Hh.
  - intros sid' Hne. unfold turns at 1. simpl. rewrite lookup_insert_ne by done.
    apply Ht.
Qed.

Section Boundary.
Context {World : Type}.
Variable create : request → World → outcome string * World.

(** [respond], with the request written out. *)
Lemma respond_unfold input sid self w :
  respond create input sid self w
  = let self1 := (get_chat_history sid self).2 in
    match create
            (Request (llm_model self)
               (Message "system" respond_prompt :: turns self sid ++ [Message "user" input])
               temperature 150) w with
    | (Raises e, w') => (Raises e, self1, w')
    | (Returns reply, w') =>
        (Returns reply,
         record sid "assistant" reply (record sid "user" input self1), w')
    end.
Proof.
  unfold respond.
  destruct (get_chat_history_view sid self) as (Hh & _ & _ & _ & Hm).
  destruct (get_chat_history sid self) as [h self1]. simpl in *.
  rewrite copy_turns_app, Hh, Hm. reflexivity.
Qed.

(** X12.  [respond] sends one request: the fixed system line, the turns
    of the session in order, and the new input as the user message; the
    stored insights are not part of it.  When the boundary replies,
    [respond] returns the reply and the session gains the user turn and
    then the assistant turn; when it raises, the exception leaves
    [respond] and no turn is recorded.  Other sessions and the insights
    stay as they were in both cases. *)
Theorem respond_effect :
  ∀ (human_input sid : string) (self : SelfImprovingAgent) (w : World),
    match create
            (Request (llm_model self)
               (Message "system" respond_prompt
                :: turns self sid ++ [Message "user" human_input])
               temperature 150) w with
    | (Returns reply, w') =>
        ∃ self', respond create human_input sid self w = (Returns reply, self', w')
          ∧ turns self' sid
            = turns self sid ++ [Message "user" human_input; Message "assistant" reply]
          ∧ (∀ sid', sid ≠ sid' → turns self' sid' = turns self sid')
          ∧ insights self' = insights self
    | (Raises e, w') =>
        ∃ self', respond create human_input sid self w = (Raises e, self', w')
          ∧ (∀ sid', turns self' sid' = turns self sid')
          ∧ insights self' = insights self
    end.
Proof.
  intros input sid self w. rewrite respond_unfold.
  destruct (get_chat_history_view sid self) as (_ & _ & Ht & Hi & _).
  set (self1 := (get_chat_history sid self).2) in *. simpl.
  destruct (create _ w) as [[reply|e] w'].
  - eexists. split; [reflexivity|].
    destruct (record_view sid "user" input self1) as (R1 & R1' & R1i & _).
    destruct (record_view sid "assistant" reply (record sid "user" input self1))
      as (R2 & R2' & R2i & _).
    split_and!.
    + by rewrite R2, R1, Ht, <- app_assoc.
    + intros sid' Hne. by rewrite R2', R1', Ht.
    + by rewrite R2i, R1i.
  - eexists. split; [reflexivity|]. done.
Qed.

(** X13.  The three ways a learning round ends.  When [reflect] raises,
    the exception leaves [reflect_and_learn] and the insights and every
    history are as before.  When [reflect] replies and [learn] raises,
    the exception leaves it with the insights already replaced by the
    reply of [reflect], and every history as before.  When both reply,
    the reply of [learn] is returned, the insights are the reply of
    [reflect], and the session gains one system entry that quotes what
    was learned; other sessions are untouched. *)
Theorem reflect_and_learn_outcomes :
  ∀ (sid : string) (self : SelfImprovingAgent) (w : World),
    (∀ e w1, reflect create (turns self sid) w = (Raises e, w1) →
       ∃ self', reflect_and_learn create sid self w = (Raises e, self', w1)
         ∧ insights self' = insights self
         ∧ (∀ sid', turns self' sid' = turns self sid'))
    ∧ (∀ new_insights w1 e w2,
         reflect create (turns self sid) w = (Returns new_insights, w1) →
         learn create new_insights w1 = (Raises e, w2) →
         ∃ self', reflect_and_learn create sid self w = (Raises e, self', w2)
           ∧ insights self' = new_insights
           ∧ (∀ sid', turns self' sid' = turns self sid'))
    ∧ (∀ new_insights w1 learned_points w2,
         reflect create (turns self sid) w = (Returns new_insights, w1) →
         learn create new_insights w1 = (Returns learned_points, w2) →
         ∃ self', reflect_and_learn create sid self w = (Returns learned_points, self', w2)
           ∧ insights self' = new_insights
           ∧ turns self' sid = turns self sid ++ [learned_note learned_points]
           ∧ (∀ sid', sid ≠ sid' → turns self' sid' = turns self sid')).
Proof.
  intros sid self w. unfold reflect_and_learn.
  destruct (get_chat_history_view sid self) as (Hh & _ & Ht & Hi & Hm).
  destruct (get_chat_history sid self) as [h self1]. simpl in *.
  rewrite Hh. split_and!.
  - intros e w1 ->. eexists. split; [reflexivity|]. done.
  - intros ins w1 e w2 -> Hl. simpl. rewrite Hl.
    eexists. split; [reflexivity|]. done.
  - intros ins w1 l w2 -> Hl. simpl. rewrite Hl.
    eexists. split; [reflexivity|].
    destruct (record_view sid "system" ("[SYSTEM] Agent learned: " +:+ l)
                (mkAgent (llm_model self1) (store self1) ins)) as (R & R' & Ri & _).
    split_and!; [done| |].
    + rewrite R. unfold turns at 1. simpl. fold (turns self1 sid). by rewrite Ht.
    + intros sid' Hne. rewrite (R' sid' Hne).
      unfold turns at 1. simpl. fold (turns self1 sid'). apply Ht.
Qed.

(** X14.  What was learned reaches later answers through the history
    only: after a learning round that succeeded, the next [respond] for
    the session gets the outcome of the boundary on a request that
    carries the earlier turns, then the system note quoting what was
    learned, then the new input. *)
Theorem learned_note_in_next_request :
  ∀ (sid : string) (self : SelfImprovingAgent) (w : World)
    (learned_points : string) (self' : SelfImprovingAgent) (w' : World)
    (human_input : string) (w2 : World),
    reflect_and_learn create sid self w = (Returns learned_points, self', w') →
    (respond create human_input sid self' w2).1.1
    = (create
         (Request (llm_model self)
            (Message "system" respond_prompt
             :: turns self sid
                ++ [learned_note learned_points; Message "user" human_input])
            temperature 150) w2).1.
Proof.
  intros sid self w l self' w' input w2 Hrl.
  assert (Hs : turns self' sid = turns self sid ++ [learned_note l]
               ∧ llm_model self' = llm_model self).
  { revert Hrl. unfold reflect_and_learn.
    destruct (get_chat_history_view sid self) as (_ & _ & Ht & _ & Hm).
    destruct (get_chat_history sid self) as [h self1]. simpl in *.
    destruct (reflect create (get_history h) w) as [[ins|e] w1]; [|done].
    simpl. destruct (learn create ins w1) as [[l'|e] w3]; [|done].
    intros [= -> <- ->].
    destruct (record_view sid "system" ("[SYSTEM] Agent learned: " +:+ l)
                (mkAgent (llm_model self1) (store self1) ins)) as (R & _ & _ & Rm).
    split.
    - rewrite R. unfold turns at 1. simpl. fold (turns self1 sid). by rewrite Ht.
    - by rewrite Rm. }
  destruct Hs as [Hturns Hmodel].
  rewrite respond_unfold, Hturns, Hmodel, <- app_assoc. simpl.
  by destruct (create _ w2) as [[reply|e] w3].
Qed.

End Boundary.

Lemma learned_note_in_next_request_witness :
  (respond Scripted.create "What's a famous landmark in this city?" "user_123"
     (reflect_and_learn Scripted.create "user_123"
        (record "user_123" "assistant" "Paris."
           (record "user_123" "user" "What's the capital of France?" new_agent))
        (Scripted.World [] [Returns "Be more specific."; Returns "Give examples."])).1.2
     (Scripted.World [] [Returns "The Eiffel Tower."])).1.1
  = Returns "The Eiffel Tower.".
Proof.
  refine (learned_note_in_next_request Scripted.create "user_123"
            (record "user_123" "assistant" "Paris."
               (record "user_123" "user" "What's the capital of France?" new_agent))
            (Scripted.World [] [Returns "Be more specific."; Returns "Give examples."])
            "Give examples." _ (Scripted.World [] [])
            "What's a famous landmark in this city?"
            (Scripted.World [] [Returns "The Eiffel Tower."]) _).
  reflexivity.
Defined.

End SelfImprovingFacts.
